(** * go-dalle: a shallow embedding of [dalle.go]

    The package is a thin client of a remote image service: three operations
    ([Generate], [Edit], [Variation]) build a request, hand it to the HTTP
    client and turn the reply into a slice of [Datum] or an error.

    The three operations are transcribed statement by statement.  They are
    written in a small monad that threads the outside world (open files, the
    requests put on the wire, the remote service) and lets a function return
    early, as Go's [return nil, err] does.  The parts of the Go standard
    library the operations call ([fmt], [encoding/json], [mime/multipart],
    [net/http], [io]) are modelled next to them, each to the extent the
    operations use it. *)

From stdpp Require Import base option list strings gmap functions pretty.
From Stdlib Require Import ZArith Ascii Lia.

#[local] Set Warnings "-register-all".

Open Scope string_scope.
Open Scope Z_scope.

(** ** Bytes and strings

    A Go [string] and a Go [[]byte] are both sequences of bytes; both are
    [string] here. *)

Definition dq : ascii := "034"%char.
Definition CR : ascii := "013"%char.
Definition LF : ascii := "010"%char.
Definition CRLF : string := String CR (String LF EmptyString).

Definition byte (a : ascii) : Z := Z.of_N (N_of_ascii a).
Definition chr (z : Z) : ascii := ascii_of_N (Z.to_N z).

Definition str1 (a : ascii) : string := String a EmptyString.

Fixpoint take_bytes (n : nat) (s : string) : string :=
  match n, s with
  | S n', String a s' => String a (take_bytes n' s')
  | _, _ => EmptyString
  end.

Fixpoint drop_bytes (n : nat) (s : string) : string :=
  match n, s with
  | S n', String _ s' => drop_bytes n' s'
  | _, _ => s
  end.

(** [js] lets a JSON text be written with apostrophes where the text has
    double quotes. *)
Fixpoint js (s : string) : string :=
  match s with
  | EmptyString => EmptyString
  | String a s' => String (if Ascii.eqb a "'"%char then dq else a) (js s')
  end.

(** ** Pointers

    [*int] arguments are printed by [fmt] as well as dereferenced, so a
    non-nil [*int] records both where it points and what is stored there.
    [*string] values are only compared with [nil] and dereferenced, so they
    are options. *)

Record int_ptr := IntPtr { address : N; pointee : Z }.

(** A handle on an [os.File] object; a [*os.File] is [None] when nil. *)
Definition loc := N.

(** ** Slices

    A non-nil slice is a window of [len] elements on a backing array;
    [array] lists the elements of the backing array that have been written
    (what lies beyond is zero).  [nil_slice] is the nil slice. *)

Inductive slice (T : Type) : Type :=
| nil_slice
| Slice (array : list T) (len : nat).
Arguments nil_slice {T}.
Arguments Slice {T} array len.

Definition elems {T} (s : slice T) : list T :=
  match s with
  | nil_slice => []
  | Slice a n => take n a
  end.

(** ** Errors

    An [error] value is modelled by its dynamic type and the fields that
    tell values of that type apart.  [errors_New text] is what
    [errors.New(text)] returns. *)

Inductive error : Type :=
| errors_New (text : string)
| json_SyntaxError
| json_UnmarshalTypeError (Value : string)
| url_Error (Op URL : string) (Err : error)
| fs_PathError (Op Path : string) (Err : error)
| syscall_Errno (errno : Z).

Definition io_EOF : error := errors_New "EOF".
Definition io_ErrUnexpectedEOF : error := errors_New "unexpected EOF".

(** ** fmt: the verb [%d]

    [fmt] prints an integer operand in decimal.  A pointer operand is
    printed by [fmtPointer], which for [%d] prints the address as an
    unsigned decimal integer. *)

Module fmt.

Inductive operand : Type :=
| int_operand (v : Z)
| pointer_operand (p : int_ptr).

Definition fmt_d (a : operand) : string :=
  match a with
  | int_operand v => pretty v
  | pointer_operand p => pretty (address p)
  end.

(** [fmt.Sprintf("%d", a)] *)
Definition Sprintf_d (a : operand) : string := fmt_d a.

(** [fmt.Sprintf("%dx%d", a, b)] *)
Definition Sprintf_dxd (a b : operand) : string :=
  fmt_d a +:+ "x" +:+ fmt_d b.

End fmt.

(** ** unicode/utf8 *)

Module utf8.

Definition RuneError : Z := 65533.

Definition in_range (lo hi : Z) (a : ascii) : bool :=
  (lo <=? byte a) && (byte a <=? hi).

(** Size of the sequence a leading byte announces and the range its second
    byte must lie in (the tables [first] and [acceptRanges]); [None] for a
    byte that cannot start a multi-byte sequence. *)
Definition first (s0 : ascii) : option (nat * (Z * Z)) :=
  let b := byte s0 in
  if (194 <=? b) && (b <=? 223) then Some (2%nat, (128, 191))
  else if b =? 224 then Some (3%nat, (160, 191))
  else if (225 <=? b) && (b <=? 236) then Some (3%nat, (128, 191))
  else if b =? 237 then Some (3%nat, (128, 159))
  else if (238 <=? b) && (b <=? 239) then Some (3%nat, (128, 191))
  else if b =? 240 then Some (4%nat, (144, 191))
  else if (241 <=? b) && (b <=? 243) then Some (4%nat, (128, 191))
  else if b =? 244 then Some (4%nat, (128, 143))
  else None.

Definition maskx (a : ascii) : Z := Z.land (byte a) 63.

(** [utf8.DecodeRuneInString]: the rune at the head of [s] and its width. *)
Definition DecodeRuneInString (s : string) : Z * nat :=
  match s with
  | EmptyString => (RuneError, 0%nat)
  | String s0 t =>
    if byte s0 <? 128 then (byte s0, 1%nat) else
    match first s0 with
    | None => (RuneError, 1%nat)
    | Some (sz, (lo, hi)) =>
      match t with
      | EmptyString => (RuneError, 1%nat)
      | String s1 t1 =>
        if negb (in_range lo hi s1) then (RuneError, 1%nat) else
        if (sz <=? 2)%nat then
          (Z.lor (Z.shiftl (Z.land (byte s0) 31) 6) (maskx s1), 2%nat)
        else
        match t1 with
        | EmptyString => (RuneError, 1%nat)
        | String s2 t2 =>
          if negb (in_range 128 191 s2) then (RuneError, 1%nat) else
          if (sz <=? 3)%nat then
            (Z.lor (Z.lor (Z.shiftl (Z.land (byte s0) 15) 12)
                          (Z.shiftl (maskx s1) 6)) (maskx s2), 3%nat)
          else
          match t2 with
          | EmptyString => (RuneError, 1%nat)
          | String s3 _ =>
            if negb (in_range 128 191 s3) then (RuneError, 1%nat) else
            (Z.lor (Z.lor (Z.lor (Z.shiftl (Z.land (byte s0) 7) 18)
                                 (Z.shiftl (maskx s1) 12))
                          (Z.shiftl (maskx s2) 6)) (maskx s3), 4%nat)
          end
        end
      end
    end
  end.

(** [utf8.EncodeRune] (as [utf8.AppendRune] onto the empty string). *)
Definition EncodeRune (r : Z) : string :=
  let cont (x : Z) := chr (Z.lor 128 (Z.land x 63)) in
  if (0 <=? r) && (r <=? 127) then str1 (chr r)
  else if (0 <=? r) && (r <=? 2047) then
    String (chr (Z.lor 192 (Z.shiftr r 6))) (str1 (cont r))
  else if (r <? 0) || (1114111 <? r) || ((55296 <=? r) && (r <=? 57343)) then
    String (chr 239) (String (chr 191) (str1 (chr 189)))
  else if r <=? 65535 then
    String (chr (Z.lor 224 (Z.shiftr r 12)))
      (String (cont (Z.shiftr r 6)) (str1 (cont r)))
  else
    String (chr (Z.lor 240 (Z.shiftr r 18)))
      (String (cont (Z.shiftr r 12))
         (String (cont (Z.shiftr r 6)) (str1 (cont r)))).

End utf8.

(** The request body of [Generate]. *)
Module GenerateRequest.

Record t : Type := Build {
  Prompt : string;            (* `json:"prompt"` *)
  N : option int_ptr;         (* `json:"n,omitempty"` *)
  Size : option string;       (* `json:"size,omitempty"` *)
  ResponseFormat : option string;   (* `json:"response_format,omitempty"` *)
  User : option string;       (* `json:"user,omitempty"` *)
}.

End GenerateRequest.

Record Datum : Type := { URL : string (* `json:"url"` *) }.

Record Response : Type := {
  Created : Z;            (* `json:"created"` *)
  Data : slice Datum;     (* `json:"data"` *)
}.

Module json.

(** ** encoding/json: Marshal

    [appendString] is the encoder of string values, with HTML escaping on
    (what [json.Marshal] uses), as it stands since Go 1.22 (before, the
    backspace and the form feed were written as [\u0008] and [\u000c]).
    The Go loop advances by the width of the rune it has just looked at;
    here the bytes still to be stepped over are counted down in
    [pending].  A byte that is not part of a well-formed UTF-8 sequence is
    written as the six-byte escape of U+FFFD; a release of the library
    that writes the replacement character itself differs from this for
    such bytes only. *)

Definition hex_digit (z : Z) : ascii :=
  if z <? 10 then chr (48 + z) else chr (87 + z).

(** [htmlSafeSet]: the ASCII bytes written as they are. *)
Definition htmlSafeSet (b : ascii) : bool :=
  (32 <=? byte b) && (byte b <? 128) &&
  negb ((byte b =? 34) || (byte b =? 92) || (byte b =? 60) ||
        (byte b =? 62) || (byte b =? 38)).

Definition escape_byte (b : ascii) : string :=
  if (byte b =? 92) || (byte b =? 34) then String "\"%char (str1 b)
  else if byte b =? 8 then "\b"
  else if byte b =? 12 then "\f"
  else if byte b =? 10 then "\n"
  else if byte b =? 13 then "\r"
  else if byte b =? 9 then "\t"
  else "\u00" +:+ String (hex_digit (Z.shiftr (byte b) 4))
                     (str1 (hex_digit (Z.land (byte b) 15))).

Inductive pending : Type :=
| Scan                (* at the start of a rune *)
| Copy (k : nat)      (* [k] more bytes of a rune that is written as it is *)
| Skip (k : nat).     (* [k] more bytes of a rune that was written escaped *)

Fixpoint appendString_from (m : pending) (src : string) : string :=
  match src with
  | EmptyString => EmptyString
  | String b rest =>
    match m with
    | Copy (S k) => String b (appendString_from (Copy k) rest)
    | Skip (S k) => appendString_from (Skip k) rest
    | _ =>
      if byte b <? 128 then
        (if htmlSafeSet b then str1 b else escape_byte b)
          +:+ appendString_from Scan rest
      else
        let '(c, size) := utf8.DecodeRuneInString (take_bytes 4 src) in
        if (c =? utf8.RuneError) && (size =? 1)%nat then
          "\ufffd" +:+ appendString_from Scan rest
        else if (c =? 8232) || (c =? 8233) then
          "\u202" +:+ str1 (hex_digit (Z.land c 15))
            +:+ appendString_from (Skip (size - 1)) rest
        else
          String b (appendString_from (Copy (size - 1)) rest)
    end
  end.

Definition appendString (src : string) : string :=
  str1 dq +:+ appendString_from Scan src +:+ str1 dq.

(** What the encoder sees of a struct: its fields in declaration order, each
    with the name and the [omitempty] option of its tag. *)
Inductive field_value : Type :=
| string_field (s : string)
| int_ptr_field (p : option int_ptr)
| string_ptr_field (p : option string).

Record field : Type := Field {
  name : string;
  omitEmpty : bool;
  contents : field_value;
}.

Definition GenerateRequest_fields (v : GenerateRequest.t) : list field :=
  [ Field "prompt" false (string_field (GenerateRequest.Prompt v));
    Field "n" true (int_ptr_field (GenerateRequest.N v));
    Field "size" true (string_ptr_field (GenerateRequest.Size v));
    Field "response_format" true
          (string_ptr_field (GenerateRequest.ResponseFormat v));
    Field "user" true (string_ptr_field (GenerateRequest.User v)) ].

(** [isEmptyValue]: a pointer is empty when nil, a string when of length 0. *)
Definition isEmptyValue (v : field_value) : bool :=
  match v with
  | string_field s => if s is EmptyString then true else false
  | int_ptr_field p => if p is None then true else false
  | string_ptr_field p => if p is None then true else false
  end.

(** A pointer is encoded as what it points to, [null] when nil; an [int] as
    a decimal number. *)
Definition encode_value (v : field_value) : string :=
  match v with
  | string_field s => appendString s
  | int_ptr_field (Some p) => pretty (pointee p)
  | string_ptr_field (Some s) => appendString s
  | int_ptr_field None | string_ptr_field None => "null"
  end.

(** [structEncoder.encode]: [next] is the byte written before the next
    member, an opening brace at first and a comma from then on. *)
Fixpoint encode_fields (next : ascii) (fs : list field) : string :=
  match fs with
  | [] => if Ascii.eqb next "{"%char then "{}" else "}"
  | f :: fs' =>
    if omitEmpty f && isEmptyValue (contents f) then encode_fields next fs'
    else
      str1 next +:+ str1 dq +:+ name f +:+ str1 dq +:+ ":"
        +:+ encode_value (contents f) +:+ encode_fields ","%char fs'
  end.

(** [json.Marshal(body)] for a [GenerateRequest]; encoding such a value has
    no failure case. *)
Definition Marshal (v : GenerateRequest.t) : string * option error :=
  (encode_fields "{"%char (GenerateRequest_fields v), None).

(** ** encoding/json: the scanner

    [Decoder.Decode] first delimits one JSON value at the head of the
    stream with the scanner of [scanner.go], a machine with a current state
    and a stack of open arrays and objects, and then stores that value.
    The machine is transcribed here; next to each open container it keeps
    what has been read of it, so that the delimited value comes out as a
    tree.  Strings and numbers are kept as their source text. *)

Inductive value : Type :=
| JNull
| JBool (b : bool)
| JNumber (literal : string)
| JString (raw : string)
| JArray (elements : list value)
| JObject (members : list (string * value)).

(** The entries of [parseState].  Members and elements are kept latest
    first.  In an object, [key] is the key read and not yet paired. *)
Inductive frame : Type :=
| parseObjectKey (members : list (string * value)) (key : option string)
| parseObjectValue (members : list (string * value)) (key : option string)
| parseArrayValue (elements : list value).

Inductive step : Type :=
| stateBeginValueOrEmpty
| stateBeginValue
| stateBeginStringOrEmpty
| stateBeginString
| stateEndValue
| stateInString (lit : string)
| stateInStringEsc (lit : string)
| stateInStringEscU (lit : string) (seen : nat)
| stateNeg (lit : string)
| state1 (lit : string)
| state0 (lit : string)
| stateDot (lit : string)
| stateDot0 (lit : string)
| stateE (lit : string)
| stateESign (lit : string)
| stateE0 (lit : string)
| stateLiteral (v : value) (expect : string).

Inductive scanned : Type :=
| scanContinue (s : step) (stack : list frame)
| scanEnd (v : value)        (* the top-level value is complete *)
| scanError.

Definition maxNestingDepth : Z := 10000.

Definition isSpace (c : ascii) : bool :=
  (byte c =? 32) || (byte c =? 9) || (byte c =? 13) || (byte c =? 10).

Definition isDigit (c : ascii) : bool := (48 <=? byte c) && (byte c <=? 57).

Definition isHex (c : ascii) : bool :=
  isDigit c || ((97 <=? byte c) && (byte c <=? 102))
            || ((65 <=? byte c) && (byte c <=? 70)).

Definition snoc (lit : string) (c : ascii) : string := lit +:+ str1 c.

Definition pushParseState (f : frame) (stack : list frame) (next : step)
  : scanned :=
  if Z.of_nat (length (f :: stack)) <=? maxNestingDepth
  then scanContinue next (f :: stack)
  else scanError.

(** A value has just been completed: it is the top-level value, or it goes
    into the innermost open container. *)
Definition endValue (v : value) (stack : list frame) : scanned :=
  match stack with
  | [] => scanEnd v
  | parseArrayValue es :: st =>
      scanContinue stateEndValue (parseArrayValue (v :: es) :: st)
  | parseObjectKey ms None :: st =>
      match v with
      | JString raw =>
          scanContinue stateEndValue (parseObjectKey ms (Some raw) :: st)
      | _ => scanError
      end
  | parseObjectValue ms (Some k) :: st =>
      scanContinue stateEndValue (parseObjectValue ((k, v) :: ms) None :: st)
  | _ => scanError
  end.

(** [stateEndValue]: after a value, inside a container. *)
Definition stateEndValue_step (stack : list frame) (c : ascii) : scanned :=
  if isSpace c then scanContinue stateEndValue stack else
  match stack with
  | parseObjectKey ms (Some k) :: st =>
      if byte c =? 58 (* : *)
      then scanContinue stateBeginValue (parseObjectValue ms (Some k) :: st)
      else scanError
  | parseObjectValue ms None :: st =>
      if byte c =? 44 (* , *)
      then scanContinue stateBeginString (parseObjectKey ms None :: st)
      else if byte c =? 125 (* } *) then endValue (JObject (rev ms)) st
      else scanError
  | parseArrayValue es :: st =>
      if byte c =? 44 then scanContinue stateBeginValue stack
      else if byte c =? 93 (* ] *) then endValue (JArray (rev es)) st
      else scanError
  | _ => scanError
  end.

(** A number ends at the first byte that cannot continue it; that byte is
    then read in [stateEndValue]. *)
Definition endNumber (lit : string) (stack : list frame) (c : ascii)
  : scanned :=
  match endValue (JNumber lit) stack with
  | scanContinue _ stack' => stateEndValue_step stack' c
  | r => r
  end.

Definition stateBeginString_step (stack : list frame) (c : ascii) : scanned :=
  if isSpace c then scanContinue stateBeginString stack
  else if byte c =? 34 then scanContinue (stateInString EmptyString) stack
  else scanError.

Definition stateBeginValue_step (stack : list frame) (c : ascii) : scanned :=
  if isSpace c then scanContinue stateBeginValue stack
  else if byte c =? 123 (* { *) then
    pushParseState (parseObjectKey [] None) stack stateBeginStringOrEmpty
  else if byte c =? 91 (* [ *) then
    pushParseState (parseArrayValue []) stack stateBeginValueOrEmpty
  else if byte c =? 34 then scanContinue (stateInString EmptyString) stack
  else if byte c =? 45 (* - *) then scanContinue (stateNeg (str1 c)) stack
  else if byte c =? 48 then scanContinue (state0 (str1 c)) stack
  else if byte c =? 116 (* t *) then
    scanContinue (stateLiteral (JBool true) "rue") stack
  else if byte c =? 102 (* f *) then
    scanContinue (stateLiteral (JBool false) "alse") stack
  else if byte c =? 110 (* n *) then
    scanContinue (stateLiteral JNull "ull") stack
  else if (49 <=? byte c) && (byte c <=? 57) then
    scanContinue (state1 (str1 c)) stack
  else scanError.

Definition state0_step (lit : string) (stack : list frame) (c : ascii)
  : scanned :=
  if byte c =? 46 (* . *) then scanContinue (stateDot (snoc lit c)) stack
  else if (byte c =? 101) || (byte c =? 69) (* e E *) then
    scanContinue (stateE (snoc lit c)) stack
  else endNumber lit stack c.

Definition stateESign_step (lit : string) (stack : list frame) (c : ascii)
  : scanned :=
  if isDigit c then scanContinue (stateE0 (snoc lit c)) stack else scanError.

(** [scanner.step]: one byte. *)
Definition scan_step (s : step) (stack : list frame) (c : ascii) : scanned :=
  match s with
  | stateBeginValueOrEmpty =>
      if isSpace c then scanContinue stateBeginValueOrEmpty stack
      else if byte c =? 93 then stateEndValue_step stack c
      else stateBeginValue_step stack c
  | stateBeginValue => stateBeginValue_step stack c
  | stateBeginStringOrEmpty =>
      if isSpace c then scanContinue stateBeginStringOrEmpty stack
      else if byte c =? 125 then
        match stack with
        | parseObjectKey ms None :: st =>
            stateEndValue_step (parseObjectValue ms None :: st) c
        | _ => scanError
        end
      else stateBeginString_step stack c
  | stateBeginString => stateBeginString_step stack c
  | stateEndValue => stateEndValue_step stack c
  | stateInString lit =>
      if byte c =? 34 then endValue (JString lit) stack
      else if byte c =? 92 (* \ *) then
        scanContinue (stateInStringEsc (snoc lit c)) stack
      else if byte c <? 32 then scanError
      else scanContinue (stateInString (snoc lit c)) stack
  | stateInStringEsc lit =>
      if (byte c =? 98) || (byte c =? 102) || (byte c =? 110) ||
         (byte c =? 114) || (byte c =? 116) || (byte c =? 92) ||
         (byte c =? 47) || (byte c =? 34)
      then scanContinue (stateInString (snoc lit c)) stack
      else if byte c =? 117 (* u *) then
        scanContinue (stateInStringEscU (snoc lit c) 0) stack
      else scanError
  | stateInStringEscU lit seen =>
      if isHex c then
        if (seen =? 3)%nat then scanContinue (stateInString (snoc lit c)) stack
        else scanContinue (stateInStringEscU (snoc lit c) (S seen)) stack
      else scanError
  | stateNeg lit =>
      if byte c =? 48 then scanContinue (state0 (snoc lit c)) stack
      else if (49 <=? byte c) && (byte c <=? 57) then
        scanContinue (state1 (snoc lit c)) stack
      else scanError
  | state1 lit =>
      if isDigit c then scanContinue (state1 (snoc lit c)) stack
      else state0_step lit stack c
  | state0 lit => state0_step lit stack c
  | stateDot lit =>
      if isDigit c then scanContinue (stateDot0 (snoc lit c)) stack
      else scanError
  | stateDot0 lit =>
      if isDigit c then scanContinue (stateDot0 (snoc lit c)) stack
      else if (byte c =? 101) || (byte c =? 69) then
        scanContinue (stateE (snoc lit c)) stack
      else endNumber lit stack c
  | stateE lit =>
      if (byte c =? 43) || (byte c =? 45) (* + - *) then
        scanContinue (stateESign (snoc lit c)) stack
      else stateESign_step lit stack c
  | stateESign lit => stateESign_step lit stack c
  | stateE0 lit =>
      if isDigit c then scanContinue (stateE0 (snoc lit c)) stack
      else endNumber lit stack c
  | stateLiteral v expect =>
      match expect with
      | String e more =>
          if Ascii.eqb c e then
            if more is EmptyString then endValue v stack
            else scanContinue (stateLiteral v more) stack
          else scanError
      | EmptyString => scanError
      end
  end.

(** [Decoder.readValue]: run the scanner over the stream until the first
    value is complete.  What follows that value is not looked at.  At the
    end of the stream a number at top level is complete; otherwise the
    error is [io.EOF] if only white space was seen and
    [io.ErrUnexpectedEOF] if not. *)
Fixpoint readValue_from (s : step) (stack : list frame) (nonSpace : bool)
    (buf : string) : error + value :=
  match buf with
  | EmptyString =>
      match scan_step s stack " "%char with
      | scanEnd v => inr v
      | _ => inl (if nonSpace then io_ErrUnexpectedEOF else io_EOF)
      end
  | String c rest =>
      match scan_step s stack c with
      | scanError => inl json_SyntaxError
      | scanEnd v => inr v
      | scanContinue s' stack' =>
          readValue_from s' stack' (nonSpace || negb (isSpace c)) rest
      end
  end.

Definition readValue (buf : string) : error + value :=
  readValue_from stateBeginValue [] false buf.

(** [checkValid], behind [json.Valid]: the whole text is one value, with
    nothing but white space after it. *)
Fixpoint all_space (s : string) : bool :=
  match s with
  | EmptyString => true
  | String c rest => isSpace c && all_space rest
  end.

Fixpoint checkValid_from (s : step) (stack : list frame) (data : string)
  : bool :=
  match data with
  | EmptyString =>
      match scan_step s stack " "%char with
      | scanEnd _ => true
      | _ => false
      end
  | String c rest =>
      match scan_step s stack c with
      | scanError => false
      | scanEnd _ =>
          (* a number at top level is ended by the byte after it, which is
             then read as what follows the value *)
          match s, stack with
          | (stateInString _ | stateLiteral _ _), [] => all_space rest
          | _, [] => all_space data
          | _, _ :: _ => all_space rest
          end
      | scanContinue s' stack' => checkValid_from s' stack' rest
      end
  end.

Definition Valid (data : string) : bool :=
  checkValid_from stateBeginValue [] data.

(** ** encoding/json: storing the value

    [unquote] turns the source text of a string the scanner has accepted
    into the string it denotes.  As in the encoder, the bytes a step has
    already dealt with are counted down. *)

Definition hexval (c : ascii) : Z :=
  if isDigit c then byte c - 48
  else if (97 <=? byte c) && (byte c <=? 102) then byte c - 87
  else byte c - 55.

(** [getu4]: the code unit of a [\uXXXX] at the head of [s], if there is
    one. *)
Definition getu4 (s : string) : option Z :=
  match s with
  | String b (String u (String h1 (String h2 (String h3 (String h4 _))))) =>
      if (byte b =? 92) && (byte u =? 117) &&
         isHex h1 && isHex h2 && isHex h3 && isHex h4
      then Some (hexval h1 * 4096 + hexval h2 * 256 + hexval h3 * 16 + hexval h4)
      else None
  | _ => None
  end.

Definition isSurrogate (r : Z) : bool := (55296 <=? r) && (r <? 57344).

(** [utf16.DecodeRune] *)
Definition utf16_DecodeRune (r1 r2 : Z) : Z :=
  if (55296 <=? r1) && (r1 <? 56320) && (56320 <=? r2) && (r2 <? 57344)
  then Z.lor (Z.shiftl (r1 - 55296) 10) (r2 - 56320) + 65536
  else utf8.RuneError.

Definition unescape (e : ascii) : ascii :=
  if byte e =? 98 then chr 8
  else if byte e =? 102 then chr 12
  else if byte e =? 110 then chr 10
  else if byte e =? 114 then chr 13
  else if byte e =? 116 then chr 9
  else e.

Fixpoint unquote_from (skip : nat) (s : string) : string :=
  match s with
  | EmptyString => EmptyString
  | String c rest =>
    match skip with
    | S k => unquote_from k rest
    | O =>
      if byte c =? 92 then
        match rest with
        | EmptyString => EmptyString
        | String e _ =>
          if byte e =? 117 then
            match getu4 s with
            | None => EmptyString
            | Some rr =>
              if isSurrogate rr then
                match getu4 (drop_bytes 6 s) with
                | Some rr1 =>
                  let dec := utf16_DecodeRune rr rr1 in
                  if dec =? utf8.RuneError
                  then utf8.EncodeRune utf8.RuneError +:+ unquote_from 5 rest
                  else utf8.EncodeRune dec +:+ unquote_from 11 rest
                | None => utf8.EncodeRune utf8.RuneError +:+ unquote_from 5 rest
                end
              else utf8.EncodeRune rr +:+ unquote_from 5 rest
            end
          else String (unescape e) (unquote_from 1 rest)
        end
      else if byte c <? 128 then String c (unquote_from 0 rest)
      else
        let '(rr, size) := utf8.DecodeRuneInString (take_bytes 4 s) in
        utf8.EncodeRune rr +:+ unquote_from (size - 1) rest
    end
  end.

Definition unquote (raw : string) : string := unquote_from 0 raw.

(** Field names are matched exactly or, failing that, up to case.  The
    names of this package have no letter whose case folding leaves ASCII,
    so matching up to case is matching the ASCII upper-case forms. *)
Definition upper (c : ascii) : ascii :=
  if (97 <=? byte c) && (byte c <=? 122) then chr (byte c - 32) else c.

Fixpoint foldName (s : string) : string :=
  match s with
  | EmptyString => EmptyString
  | String c rest => String (upper c) (foldName rest)
  end.

Definition matches (key field_name : string) : bool :=
  String.eqb key field_name || String.eqb (foldName key) (foldName field_name).

(** [strconv.ParseInt(s, 10, 64)] on the text of a JSON number: a fraction
    or an exponent is a syntax error, a value outside [int64] a range
    error. *)
Fixpoint digits_value (acc : Z) (s : string) : option Z :=
  match s with
  | EmptyString => Some acc
  | String c rest =>
      if isDigit c then digits_value (acc * 10 + (byte c - 48)) rest else None
  end.

Definition ParseInt (lit : string) : option Z :=
  let '(neg, ds) :=
    match lit with
    | String c rest => if byte c =? 45 then (true, rest) else (false, lit)
    | EmptyString => (false, lit)
    end in
  if ds is EmptyString then None else
  match digits_value 0 ds with
  | Some n =>
      let v := if neg : bool then - n else n in
      if (- 2 ^ 63 <=? v) && (v <? 2 ^ 63) then Some v else None
  | None => None
  end.

(** [saveError] keeps the first error and lets decoding go on. *)
Definition saveError (saved : option error) (e : error) : option error :=
  match saved with
  | Some _ => saved
  | None => Some e
  end.

(** The [Value] of the [UnmarshalTypeError] for a JSON value that does not
    fit where it is to be stored. *)
Definition describe (v : value) : string :=
  match v with
  | JNull => "null"
  | JBool _ => "bool"
  | JNumber _ => "number"
  | JString _ => "string"
  | JArray _ => "array"
  | JObject _ => "object"
  end.

Definition mismatch (v : value) (saved : option error) : option error :=
  saveError saved (json_UnmarshalTypeError (describe v)).

(** Storing into a [string]; [null] leaves it as it is. *)
Definition store_string (v : value) (cur : string) (saved : option error)
  : string * option error :=
  match v with
  | JString raw => (unquote raw, saved)
  | JNull => (cur, saved)
  | _ => (cur, mismatch v saved)
  end.

(** Storing into an [int64]. *)
Definition store_int64 (v : value) (cur : Z) (saved : option error)
  : Z * option error :=
  match v with
  | JNumber lit =>
      match ParseInt lit with
      | Some n => (n, saved)
      | None =>
          (cur, saveError saved (json_UnmarshalTypeError ("number " +:+ lit)))
      end
  | JNull => (cur, saved)
  | _ => (cur, mismatch v saved)
  end.

(** Storing into a [Datum]: the members are taken in order, the ones that
    name no field are skipped, the fields not named are left as they are. *)
Fixpoint store_Datum_members (ms : list (string * value)) (d : Datum)
    (saved : option error) : Datum * option error :=
  match ms with
  | [] => (d, saved)
  | (k, v) :: ms' =>
      if matches (unquote k) "url" then
        let '(u, saved') := store_string v (URL d) saved in
        store_Datum_members ms' {| URL := u |} saved'
      else store_Datum_members ms' d saved
  end.

Definition store_Datum (v : value) (d : Datum) (saved : option error)
  : Datum * option error :=
  match v with
  | JObject ms => store_Datum_members ms d saved
  | JNull => (d, saved)
  | _ => (d, mismatch v saved)
  end.

Definition zero_Datum : Datum := {| URL := EmptyString |}.

(** Storing the elements of an array into a slice ([decodeState.array]):
    element [i] is stored into [v.Index(i)], after the slice has been
    lengthened to take it in. *)
Fixpoint store_elements (vs : list value) (i : nat) (array : list Datum)
    (saved : option error) : list Datum * option error :=
  match vs with
  | [] => (array, saved)
  | v :: vs' =>
      let array := if (length array <=? i)%nat
                   then (array ++ [zero_Datum])%list else array in
      let '(d, saved') := store_Datum v (default zero_Datum (array !! i)) saved in
      store_elements vs' (S i) (<[i := d]> array) saved'
  end.

(** Storing into a [[]Datum]: after the elements, the length is the number
    of elements read; an empty array gives a new empty slice, [null] the nil
    slice. *)
Definition store_slice (v : value) (cur : slice Datum) (saved : option error)
  : slice Datum * option error :=
  match v with
  | JArray vs =>
      let array := match cur with nil_slice => [] | Slice a _ => a end in
      let '(array', saved') := store_elements vs 0 array saved in
      (if vs is [] then Slice [] 0 else Slice array' (length vs), saved')
  | JNull => (nil_slice, saved)
  | _ => (cur, mismatch v saved)
  end.

Fixpoint store_Response_members (ms : list (string * value)) (r : Response)
    (saved : option error) : Response * option error :=
  match ms with
  | [] => (r, saved)
  | (k, v) :: ms' =>
      if matches (unquote k) "created" then
        let '(c, saved') := store_int64 v (Created r) saved in
        store_Response_members ms' {| Created := c; Data := Data r |} saved'
      else if matches (unquote k) "data" then
        let '(d, saved') := store_slice v (Data r) saved in
        store_Response_members ms' {| Created := Created r; Data := d |} saved'
      else store_Response_members ms' r saved
  end.

(** [decodeState.unmarshal] into a [*Response]. *)
Definition unmarshal (v : value) (r : Response) : Response * option error :=
  match v with
  | JObject ms => store_Response_members ms r None
  | JNull => (r, None)
  | _ => (r, mismatch v None)
  end.

(** [json.NewDecoder(body).Decode(&response)]: the response as it is left
    and the error returned. *)
Definition Decode (body : string) (r : Response)
  : Response * option error :=
  match readValue body with
  | inl e => (r, Some e)
  | inr v => unmarshal v r
  end.

End json.

Definition zero_Response : Response := {| Created := 0; Data := nil_slice |}.

(** ** mime/multipart: Writer

    The writer appends to a [bytes.Buffer], which takes every write, so none
    of its methods has a failure case here; they still return an error
    position, as in Go.  A part writer is the writer itself while the part
    is the last one created. *)

Module multipart.

Record Writer : Type := {
  buf : string;         (* what has been written to the underlying buffer *)
  boundary : string;
  lastpart : bool;      (* has a part been created? *)
}.

(** [NewWriter], given the boundary its random source produces. *)
Definition NewWriter (boundary : string) : Writer :=
  {| buf := EmptyString; boundary := boundary; lastpart := false |}.

Definition write (w : Writer) (data : string) : Writer :=
  {| buf := buf w +:+ data; boundary := boundary w; lastpart := lastpart w |}.

(** [quoteEscaper]: a backslash before each backslash and double quote.
    A release of the library that also writes CR and LF as %0D and %0A
    differs from this for names that hold such bytes only. *)
Fixpoint escapeQuotes (s : string) : string :=
  match s with
  | EmptyString => EmptyString
  | String c rest =>
      if (byte c =? 92) || (byte c =? 34)
      then String "\"%char (String c (escapeQuotes rest))
      else String c (escapeQuotes rest)
  end.

Fixpoint header_lines (header : list (string * string)) : string :=
  match header with
  | [] => EmptyString
  | (k, v) :: rest => k +:+ ": " +:+ v +:+ CRLF +:+ header_lines rest
  end.

(** The delimiter line and the header of a part; [header] lists the header
    fields by key in increasing order, the order [CreatePart] writes them
    in. *)
Definition part_head (boundary : string) (lastpart : bool)
    (header : list (string * string)) : string :=
  (if lastpart then CRLF +:+ "--" +:+ boundary +:+ CRLF
   else "--" +:+ boundary +:+ CRLF)
  +:+ header_lines header +:+ CRLF.

Definition CreatePart (header : list (string * string)) (w : Writer)
  : error + Writer :=
  inr {| buf := buf w +:+ part_head (boundary w) (lastpart w) header;
         boundary := boundary w;
         lastpart := true |}.

Definition file_header (fieldname filename : string)
  : list (string * string) :=
  [ ("Content-Disposition",
     "form-data; name=" +:+ str1 dq +:+ escapeQuotes fieldname +:+ str1 dq
       +:+ "; filename=" +:+ str1 dq +:+ escapeQuotes filename +:+ str1 dq);
    ("Content-Type", "application/octet-stream") ].

Definition field_header (fieldname : string) : list (string * string) :=
  [ ("Content-Disposition",
     "form-data; name=" +:+ str1 dq +:+ escapeQuotes fieldname +:+ str1 dq) ].

Definition CreateFormFile (fieldname filename : string) (w : Writer)
  : error + Writer :=
  CreatePart (file_header fieldname filename) w.

Definition CreateFormField (fieldname : string) (w : Writer)
  : error + Writer :=
  CreatePart (field_header fieldname) w.

Definition WriteField (fieldname value : string) (w : Writer)
  : error + Writer :=
  match CreateFormField fieldname w with
  | inl err => inl err
  | inr p => inr (write p value)
  end.

Definition trailer (boundary : string) : string :=
  CRLF +:+ "--" +:+ boundary +:+ "--" +:+ CRLF.

Definition Close (w : Writer) : error + Writer :=
  inr {| buf := buf w +:+ trailer (boundary w);
         boundary := boundary w;
         lastpart := false |}.

(** The tspecials of RFC 2045, and the space. *)
Definition tspecial (c : ascii) : bool :=
  existsb (Z.eqb (byte c))
    [40; 41; 60; 62; 64; 44; 59; 58; 92; 34; 47; 91; 93; 63; 61; 32].

Fixpoint ContainsAny_tspecials (s : string) : bool :=
  match s with
  | EmptyString => false
  | String c rest => tspecial c || ContainsAny_tspecials rest
  end.

Definition FormDataContentType (w : Writer) : string :=
  let b := boundary w in
  let b := if ContainsAny_tspecials b then str1 dq +:+ b +:+ str1 dq else b in
  "multipart/form-data; boundary=" +:+ b.

End multipart.

(** ** os and io

    An [os.File] object, as far as reading it to the end goes: the bytes
    from its offset to its end, and the error, if any, that a read meets
    once those bytes have been delivered.  The file system maps each handle
    to its object, so that two [*os.File] that are the same pointer share
    one offset. *)

Module os.

Record File : Type := {
  name : string;
  unread : string;
  fault : option error;
}.

Definition FS : Type := loc -> File.

(** [f.Name()] *)
Definition Name (f : loc) (fs : FS) : FS * string := (fs, name (fs f)).

End os.

Module io.

(** [io.Copy(part, f)]: everything [f] delivers is written to the part,
    and [f] is left at the point reading stopped.  A read error comes
    wrapped in a [PathError]; reaching the end of the file is no error. *)
Definition Copy (dst : multipart.Writer) (src : loc) (fs : os.FS)
  : os.FS * (multipart.Writer * option error) :=
  let f := fs src in
  (<[src := {| os.name := os.name f; os.unread := EmptyString;
               os.fault := os.fault f |}]> fs,
   (multipart.write dst (os.unread f),
    fs_PathError "read" (os.name f) <$> os.fault f)).

End io.

(** ** net/http

    [Net] is what lies behind the HTTP client: the requests handed to it so
    far, the outcome the exchange of a request has (the final response, or
    the error of the transport), and the verdict of [url.Parse] on a URL,
    which is not modelled further. *)

Module http.

Record Request : Type := {
  Method : string;
  URL : string;
  Header : gmap string (list string);
  Body : string;
}.

Record Response : Type := {
  StatusCode : Z;
  RespBody : string;     (* the bytes the body delivers up to its end *)
}.

Record Client : Type := { Timeout : Z (* in nanoseconds *) }.

Record Net : Type := {
  wire : list Request;
  remote : Request -> error + Response;
  url_Parse : string -> option error;
}.

(** [http.NewRequest]: fails when the URL does not parse. *)
Definition NewRequest (method url body : string) (n : Net)
  : Net * (error + Request) :=
  (n, match url_Parse n url with
      | Some err => inl err
      | None => inr {| Method := method; URL := url; Header := ∅;
                       Body := body |}
      end).

(** [req.Header.Set(key, value)]; the keys this package sets are already in
    canonical form. *)
Definition Header_Set (key value : string) (req : Request) : Request :=
  {| Method := Method req; URL := URL req;
     Header := <[key := [value]]> (Header req); Body := Body req |}.

(** [c.Do(req)]: the request goes out; an error of the exchange comes back
    as a [*url.Error]. *)
Definition Do (c : Client) (req : Request) (n : Net)
  : Net * (error + Response) :=
  ({| wire := (wire n ++ [req])%list;
      remote := remote n;
      url_Parse := url_Parse n |},
   match remote n req with
   | inl err => inl (url_Error "Post" (URL req) err)
   | inr resp => inr resp
   end).

End http.

(** ** The world and the monad of the operations

    An operation runs against the files, the network and the random source
    of boundaries.  Inside an operation a computation changes the world and
    either goes on with a value or has returned from the operation with its
    pair of results. *)

Record World : Type := {
  files : os.FS;
  net : http.Net;
  rand : string;     (* the boundary [multipart.NewWriter] draws *)
}.

Definition result : Type := slice Datum * option error.

Definition Go (A : Type) : Type := World -> World * (result + A).

#[export] Instance Go_ret : MRet Go := fun A a w => (w, inr a).

#[export] Instance Go_bind : MBind Go := fun A B k m w =>
  match m w with
  | (w', inl r) => (w', inl r)
  | (w', inr a) => k a w'
  end.

(** [return d, err] *)
Definition Return {A} (d : slice Datum) (err : option error) : Go A :=
  fun w => (w, inl (d, err)).

(** [x, err := f(...); if err != nil { return nil, err }] *)
Definition check {A} (r : error + A) : Go A :=
  match r with
  | inl err => Return nil_slice (Some err)
  | inr a => mret a
  end.

Definition on_files {A} (f : os.FS -> os.FS * A) : Go A := fun w =>
  let '(fs, a) := f (files w) in
  ({| files := fs; net := net w; rand := rand w |}, inr a).

Definition on_net {A} (f : http.Net -> http.Net * A) : Go A := fun w =>
  let '(n, a) := f (net w) in
  ({| files := files w; net := n; rand := rand w |}, inr a).

Definition randomBoundary : Go string := fun w => (w, inr (rand w)).

(** A function body: every path through it ends in a [return].  A deferred
    [resp.Body.Close()] has no counterpart here: the body of a response is
    the bytes it delivers. *)
Definition func (body : Go Empty_set) (w : World) : World * result :=
  match body w with
  | (w', inl r) => (w', r)
  | (_, inr e) => match e with end
  end.

(** ** The package *)

Definition Small : Z := 256.
Definition Medium : Z := 512.
Definition Large : Z := 1024.

Definition defaultBaseURL : string := "https://api.openai.com/v1/images".
Definition defaultUserAgent : string := "go-dalle".
Definition defaultTimeout : Z := 30 * 1000000000.

Definition URLFormat : string := "url".
Definition Base64JSONFormat : string := "b64_json".

Record client : Type := {
  baseURL : string;
  apiKey : string;
  userAgent : string;
  httpClient : http.Client;
}.

Definition NewClient (apiKey : string) : client :=
  let httpClient := {| http.Timeout := defaultTimeout |} in
  {| baseURL := defaultBaseURL;
     apiKey := apiKey;
     userAgent := defaultUserAgent;
     httpClient := httpClient |}.

Definition pointerizeString (s : string) : option string := Some s.

Definition Generate (c : client) (prompt : string) (size n : option int_ptr)
    (user responseType : option string) : World -> World * result :=
  func (
    let url := baseURL c +:+ "/generations" in
    let sizeStr :=
      match size with
      | Some p =>
          pointerizeString
            (fmt.Sprintf_dxd (fmt.pointer_operand p) (fmt.pointer_operand p))
      | None => None
      end in
    let body :=
      {| GenerateRequest.Prompt := prompt;
         GenerateRequest.N := n;
         GenerateRequest.Size := sizeStr;
         GenerateRequest.User := user;
         GenerateRequest.ResponseFormat := responseType |} in
    let '(jsonStr, err) := json.Marshal body in
    if err is Some err then Return nil_slice (Some err) else
    r ← on_net (http.NewRequest "POST" url jsonStr);
    req ← check r;
    let req := http.Header_Set "Authorization" ("Bearer " +:+ apiKey c) req in
    let req := http.Header_Set "User-Agent" (userAgent c) req in
    let req := http.Header_Set "Content-Type" "application/json" req in
    r ← on_net (http.Do (httpClient c) req);
    resp ← check r;
    if negb (http.StatusCode resp =? 200) then
      if http.StatusCode resp =? 400 then
        Return nil_slice (Some (errors_New "bad request"))
      else if http.StatusCode resp =? 401 then
        Return nil_slice (Some (errors_New "unauthorized"))
      else if http.StatusCode resp =? 403 then
        Return nil_slice (Some (errors_New "forbidden"))
      else if http.StatusCode resp =? 404 then
        Return nil_slice (Some (errors_New "not found"))
      else if http.StatusCode resp =? 429 then
        Return nil_slice (Some (errors_New "too many requests"))
      else if http.StatusCode resp =? 500 then
        Return nil_slice (Some (errors_New "internal server error"))
      else if http.StatusCode resp =? 502 then
        Return nil_slice (Some (errors_New "bad gateway"))
      else if http.StatusCode resp =? 503 then
        Return nil_slice (Some (errors_New "service unavailable"))
      else if http.StatusCode resp =? 504 then
        Return nil_slice (Some (errors_New "gateway timeout"))
      else
        Return nil_slice (Some (errors_New "unknown error"))
    else
    let response := zero_Response in
    let '(response, err) := json.Decode (http.RespBody resp) response in
    if err is Some err then Return nil_slice (Some err) else
    Return (Data response) None).

Definition Edit (c : client) (prompt : string) (image mask : option loc)
    (size n : option int_ptr) (user responseType : option string)
  : World -> World * result :=
  func (
    let url := baseURL c +:+ "/edits" in
    boundary ← randomBoundary;
    let w := multipart.NewWriter boundary in
    match image with None => Return nil_slice (Some (errors_New "image is nil"))
    | Some image =>
    match mask with None => Return nil_slice (Some (errors_New "mask is nil"))
    | Some mask =>
    filename ← on_files (os.Name image);
    imageWriter ← check (multipart.CreateFormFile "image" filename w);
    '(w, err) ← on_files (io.Copy imageWriter image);
    if err is Some err then Return nil_slice (Some err) else
    filename ← on_files (os.Name mask);
    maskWriter ← check (multipart.CreateFormFile "mask" filename w);
    '(w, err) ← on_files (io.Copy maskWriter mask);
    if err is Some err then Return nil_slice (Some err) else
    let sizeStr :=
      match size with
      | Some p =>
          pointerizeString
            (fmt.Sprintf_dxd (fmt.pointer_operand p) (fmt.pointer_operand p))
      | None => None
      end in
    w ← check (multipart.WriteField "prompt" prompt w);
    w ← match n with
        | Some p =>
            check (multipart.WriteField "n"
                     (fmt.Sprintf_d (fmt.pointer_operand p)) w)
        | None => mret w
        end;
    w ← match sizeStr with
        | Some s => check (multipart.WriteField "size" s w)
        | None => mret w
        end;
    w ← match user with
        | Some s => check (multipart.WriteField "user" s w)
        | None => mret w
        end;
    w ← match responseType with
        | Some s => check (multipart.WriteField "response_format" s w)
        | None => mret w
        end;
    w ← check (multipart.Close w);
    r ← on_net (http.NewRequest "POST" url (multipart.buf w));
    req ← check r;
    let req := http.Header_Set "Authorization" ("Bearer " +:+ apiKey c) req in
    let req := http.Header_Set "User-Agent" (userAgent c) req in
    let req :=
      http.Header_Set "Content-Type" (multipart.FormDataContentType w) req in
    r ← on_net (http.Do (httpClient c) req);
    resp ← check r;
    if negb (http.StatusCode resp =? 200) then
      if http.StatusCode resp =? 400 then
        Return nil_slice (Some (errors_New "bad request"))
      else if http.StatusCode resp =? 401 then
        Return nil_slice (Some (errors_New "unauthorized"))
      else if http.StatusCode resp =? 403 then
        Return nil_slice (Some (errors_New "forbidden"))
      else if http.StatusCode resp =? 404 then
        Return nil_slice (Some (errors_New "not found"))
      else if http.StatusCode resp =? 429 then
        Return nil_slice (Some (errors_New "too many requests"))
      else if http.StatusCode resp =? 500 then
        Return nil_slice (Some (errors_New "internal server error"))
      else if http.StatusCode resp =? 502 then
        Return nil_slice (Some (errors_New "bad gateway"))
      else if http.StatusCode resp =? 503 then
        Return nil_slice (Some (errors_New "service unavailable"))
      else if http.StatusCode resp =? 504 then
        Return nil_slice (Some (errors_New "gateway timeout"))
      else
        Return nil_slice (Some (errors_New "unknown error"))
    else
    let response := zero_Response in
    let '(response, err) := json.Decode (http.RespBody resp) response in
    if err is Some err then Return nil_slice (Some err) else
    Return (Data response) None
    end end).

Definition Variation (c : client) (image : option loc)
    (size n : option int_ptr) (user responseType : option string)
  : World -> World * result :=
  func (
    let url := baseURL c +:+ "/variations" in
    boundary ← randomBoundary;
    let w := multipart.NewWriter boundary in
    match image with None => Return nil_slice (Some (errors_New "image is nil"))
    | Some image =>
    filename ← on_files (os.Name image);
    imageWriter ← check (multipart.CreateFormFile "image" filename w);
    '(w, err) ← on_files (io.Copy imageWriter image);
    if err is Some err then Return nil_slice (Some err) else
    let sizeStr :=
      match size with
      | Some p =>
          pointerizeString
            (fmt.Sprintf_dxd (fmt.pointer_operand p) (fmt.pointer_operand p))
      | None => None
      end in
    w ← match n with
        | Some p =>
            check (multipart.WriteField "n"
                     (fmt.Sprintf_d (fmt.pointer_operand p)) w)
        | None => mret w
        end;
    w ← match sizeStr with
        | Some s => check (multipart.WriteField "size" s w)
        | None => mret w
        end;
    w ← match user with
        | Some s => check (multipart.WriteField "user" s w)
        | None => mret w
        end;
    w ← match responseType with
        | Some s => check (multipart.WriteField "response_format" s w)
        | None => mret w
        end;
    w ← check (multipart.Close w);
    r ← on_net (http.NewRequest "POST" url (multipart.buf w));
    req ← check r;
    let req := http.Header_Set "Authorization" ("Bearer " +:+ apiKey c) req in
    let req := http.Header_Set "User-Agent" (userAgent c) req in
    let req :=
      http.Header_Set "Content-Type" (multipart.FormDataContentType w) req in
    r ← on_net (http.Do (httpClient c) req);
    resp ← check r;
    if negb (http.StatusCode resp =? 200) then
      if http.StatusCode resp =? 400 then
        Return nil_slice (Some (errors_New "bad request"))
      else if http.StatusCode resp =? 401 then
        Return nil_slice (Some (errors_New "unauthorized"))
      else if http.StatusCode resp =? 403 then
        Return nil_slice (Some (errors_New "forbidden"))
      else if http.StatusCode resp =? 404 then
        Return nil_slice (Some (errors_New "not found"))
      else if http.StatusCode resp =? 429 then
        Return nil_slice (Some (errors_New "too many requests"))
      else if http.StatusCode resp =? 500 then
        Return nil_slice (Some (errors_New "internal server error"))
      else if http.StatusCode resp =? 502 then
        Return nil_slice (Some (errors_New "bad gateway"))
      else if http.StatusCode resp =? 503 then
        Return nil_slice (Some (errors_New "service unavailable"))
      else if http.StatusCode resp =? 504 then
        Return nil_slice (Some (errors_New "gateway timeout"))
      else
        Return nil_slice (Some (errors_New "unknown error"))
    else
    let response := zero_Response in
    let '(response, err) := json.Decode (http.RespBody resp) response in
    if err is Some err then Return nil_slice (Some err) else
    Return (Data response) None
    end).

(** * Reading the operations

    The definitions below say, in one place each, what the three operations
    do: what goes on the wire and how the reply is turned into the pair of
    results.  The lemmas [Generate_unfold], [Edit_unfold] and
    [Variation_unfold] show that the transcribed operations do just that;
    the properties are then read off. *)

(** The text of the error for a status other than 200. *)
Definition status_text (code : Z) : string :=
  if code =? 400 then "bad request"
  else if code =? 401 then "unauthorized"
  else if code =? 403 then "forbidden"
  else if code =? 404 then "not found"
  else if code =? 429 then "too many requests"
  else if code =? 500 then "internal server error"
  else if code =? 502 then "bad gateway"
  else if code =? 503 then "service unavailable"
  else if code =? 504 then "gateway timeout"
  else "unknown error".

(** The status codes with an error of their own. *)
Definition listed : list Z := [400; 401; 403; 404; 429; 500; 502; 503; 504].

(** The results for a response. *)
Definition reply (resp : http.Response) : result :=
  if http.StatusCode resp =? 200 then
    match json.Decode (http.RespBody resp) zero_Response with
    | (_, Some err) => (nil_slice, Some err)
    | (response, None) => (Data response, None)
    end
  else (nil_slice, Some (errors_New (status_text (http.StatusCode resp)))).

(** The results for the outcome of an exchange. *)
Definition answer (url : string) (r : error + http.Response) : result :=
  match r with
  | inl err => (nil_slice, Some (url_Error "Post" url err))
  | inr resp => reply resp
  end.

Definition sent (req : http.Request) (w : World) : World :=
  {| files := files w;
     net := {| http.wire := (http.wire (net w) ++ [req])%list;
               http.remote := http.remote (net w);
               http.url_Parse := http.url_Parse (net w) |};
     rand := rand w |}.

Definition request (c : client) (url contentType body : string)
  : http.Request :=
  http.Header_Set "Content-Type" contentType
    (http.Header_Set "User-Agent" (userAgent c)
       (http.Header_Set "Authorization" ("Bearer " +:+ apiKey c)
          {| http.Method := "POST"; http.URL := url; http.Header := ∅;
             http.Body := body |})).

Definition dispatch (c : client) (url contentType body : string) (w : World)
  : World * result :=
  match http.url_Parse (net w) url with
  | Some err => (w, (nil_slice, Some err))
  | None =>
      let req := request c url contentType body in
      (sent req w, answer url (http.remote (net w) req))
  end.

(** The strings the operations make of [size] and of [n]. *)
Definition sizeStr_of (size : option int_ptr) : option string :=
  match size with
  | Some p =>
      Some (fmt.Sprintf_dxd (fmt.pointer_operand p) (fmt.pointer_operand p))
  | None => None
  end.

Definition nStr_of (n : option int_ptr) : option string :=
  match n with
  | Some p => Some (fmt.Sprintf_d (fmt.pointer_operand p))
  | None => None
  end.

Definition generate_body (prompt : string) (n : option int_ptr)
    (sizeStr responseType user : option string) : string :=
  (json.Marshal
     {| GenerateRequest.Prompt := prompt;
        GenerateRequest.N := n;
        GenerateRequest.Size := sizeStr;
        GenerateRequest.ResponseFormat := responseType;
        GenerateRequest.User := user |}).1.

(** A file read to its end. *)
Definition consumed (l : loc) (fs : os.FS) : os.FS :=
  <[l := {| os.name := os.name (fs l); os.unread := EmptyString;
            os.fault := os.fault (fs l) |}]> fs.

Definition with_files (fs : os.FS) (w : World) : World :=
  {| files := fs; net := net w; rand := rand w |}.

Definition read_error (f : os.File) : option error :=
  fs_PathError "read" (os.name f) <$> os.fault f.

(** The parts of a form, as bytes. *)
Definition file_part (b : string) (first : bool) (fieldname : string)
    (f : os.File) : string :=
  multipart.part_head b (negb first)
    (multipart.file_header fieldname (os.name f)) +:+ os.unread f.

Definition field_part (b fieldname value : string) : string :=
  multipart.part_head b true (multipart.field_header fieldname) +:+ value.

Definition optional_field (b fieldname : string) (value : option string)
  : string :=
  match value with
  | Some v => field_part b fieldname v
  | None => EmptyString
  end.

Definition options (b : string) (nStr sizeStr user responseType : option string)
  : string :=
  optional_field b "n" nStr
  +:+ optional_field b "size" sizeStr
  +:+ optional_field b "user" user
  +:+ optional_field b "response_format" responseType.

Definition edit_form (b prompt : string) (img msk : os.File)
    (nStr sizeStr user responseType : option string) : string :=
  file_part b true "image" img
  +:+ file_part b false "mask" msk
  +:+ field_part b "prompt" prompt
  +:+ options b nStr sizeStr user responseType
  +:+ multipart.trailer b.

Definition variation_form (b : string) (img : os.File)
    (nStr sizeStr user responseType : option string) : string :=
  file_part b true "image" img
  +:+ options b nStr sizeStr user responseType
  +:+ multipart.trailer b.

Definition contentType (b : string) : string :=
  multipart.FormDataContentType (multipart.NewWriter b).

(** [exchanged w out req resp]: the call that took the world from [w] to
    that of [out] put [req], and nothing else, on the wire, and the exchange
    of [req] produced the response [resp]. *)
Definition exchanged (w : World) (out : World * result)
    (req : http.Request) (resp : http.Response) : Prop :=
  http.wire (net out.1) = (http.wire (net w) ++ [req])%list ∧
  http.remote (net w) req = inr resp.

(** The errors of the decoder. *)
Definition decode_error (e : error) : Prop :=
  e = io_EOF ∨ e = io_ErrUnexpectedEOF ∨ e = json_SyntaxError ∨
  ∃ v, e = json_UnmarshalTypeError v.

(** The error saved while a value is stored is a type error. *)
Definition typed (saved : option error) : Prop :=
  ∀ e, saved = Some e → ∃ v, e = json_UnmarshalTypeError v.

(** The members of the JSON text of a [GenerateRequest]. *)
Definition member (key text : string) : string :=
  str1 dq +:+ key +:+ str1 dq +:+ ":" +:+ text.

Definition optional_member (key : string) (text : option string) : string :=
  match text with
  | Some t => "," +:+ member key t
  | None => EmptyString
  end.

(** ** Reading a request body back

    To say what the JSON text of a request denotes, the text is read with
    the scanner of the decoder.  [scan_run] runs the scanner over a piece
    of text that does not end the top-level value. *)

Fixpoint scan_run (s : json.step) (stack : list json.frame) (text : string)
  : option (json.step * list json.frame) :=
  match text with
  | EmptyString => Some (s, stack)
  | String c rest =>
      match json.scan_step s stack c with
      | json.scanContinue s' stack' => scan_run s' stack' rest
      | _ => None
      end
  end.

(** A byte that stands for itself inside a JSON string. *)
Definition plain (c : ascii) : bool :=
  (32 <=? byte c) && negb (byte c =? 34) && negb (byte c =? 92).

Fixpoint plain_text (s : string) : bool :=
  match s with
  | EmptyString => true
  | String c rest => plain c && plain_text rest
  end.

(** The next [k] bytes of [s] are there and are not ASCII. *)
Fixpoint continues (k : nat) (s : string) : bool :=
  match k, s with
  | O, _ => true
  | S k', String c rest => (128 <=? byte c) && continues k' rest
  | S _, EmptyString => false
  end.

Definition pending_ok (m : json.pending) (s : string) : bool :=
  match m with
  | json.Copy k => continues k s
  | _ => true
  end.

(** The JSON value a field is encoded as, and the members the encoder
    writes for a list of fields. *)
Definition value_of (v : json.field_value) : json.value :=
  match v with
  | json.string_field s => json.JString (json.appendString_from json.Scan s)
  | json.int_ptr_field (Some p) => json.JNumber (pretty (pointee p))
  | json.string_ptr_field (Some s) =>
      json.JString (json.appendString_from json.Scan s)
  | json.int_ptr_field None | json.string_ptr_field None => json.JNull
  end.

Fixpoint members_of (fs : list json.field) : list (string * json.value) :=
  match fs with
  | [] => []
  | f :: fs' =>
      if json.omitEmpty f && json.isEmptyValue (json.contents f)
      then members_of fs'
      else (json.name f, value_of (json.contents f)) :: members_of fs'
  end.

(** The scanner is inside the object whose members so far are [ms] (latest
    first), just after a member: either the value of the member is
    complete, or it is a number that the next byte will end. *)
Definition after_member (ms : list (string * json.value))
    (s : json.step) (stack : list json.frame) : Prop :=
  (s = json.stateEndValue ∧ stack = [json.parseObjectValue ms None]) ∨
  (∃ k lit ms0,
     (s = json.state1 lit ∨ s = json.state0 lit) ∧
     stack = [json.parseObjectValue ms0 (Some k)] ∧
     ms = (k, json.JNumber lit) :: ms0).

(** The scanner is where the encoder is about to write [next]. *)
Definition ready (next : ascii) (ms : list (string * json.value))
    (s : json.step) (stack : list json.frame) : Prop :=
  (next = "{"%char ∧ s = json.stateBeginValue ∧ stack = [] ∧ ms = []) ∨
  (next = ","%char ∧ after_member ms s stack).

Fixpoint all_digits (s : string) : bool :=
  match s with
  | EmptyString => true
  | String c rest => json.isDigit c && all_digits rest
  end.

(** The members [Generate] means to send. *)
Definition text_value (s : string) : json.value :=
  json.JString (json.appendString_from json.Scan s).

Definition number_value (p : int_ptr) : json.value :=
  json.JNumber (pretty (pointee p)).

Definition optional_entry (key : string) (v : option json.value)
  : list (string * json.value) :=
  match v with
  | Some x => [(key, x)]
  | None => []
  end.

(** A member of an object that, as a member of the envelope, brings no
    element and no error: [created] holds an integer of 64 bits (or null),
    [data] holds an empty array (or null); any other member is skipped. *)
Definition brings_nothing (m : string * json.value) : Prop :=
  if json.matches (json.unquote m.1) "created" then
    m.2 = json.JNull ∨ ∃ lit, m.2 = json.JNumber lit ∧ is_Some (json.ParseInt lit)
  else if json.matches (json.unquote m.1) "data" then
    m.2 = json.JNull ∨ m.2 = json.JArray []
  else True.

Definition names_data (m : string * json.value) : bool :=
  negb (json.matches (json.unquote m.1) "created") &&
  json.matches (json.unquote m.1) "data".

(** ** Worlds that differ in one component *)

(** The world in which the next writer draws the boundary [b]. *)
Definition with_boundary (b : string) (w : World) : World :=
  {| files := files w; net := net w; rand := b |}.

(** A file of which nothing is left to read. *)
Definition drained (f : os.File) : os.File :=
  {| os.name := os.name f; os.unread := EmptyString; os.fault := os.fault f |}.

(** What an operation may do to a file object: nothing, or read it to its
    end. *)
Definition read_only (before after : os.File) : Prop :=
  after = before ∨ after = drained before.

(** What a call does to the network and to its results, whichever of the
    three operations it is: it stops before the request is sent, with an
    error and the network as it was, or it sends one request and returns
    what the exchange gives. *)
Definition stopped_or_sent (w : World) (out : World * result) : Prop :=
  (net out.1 = net w ∧ out.2.1 = nil_slice ∧ is_Some out.2.2) ∨
  (∃ req, net out.1 = net (sent req w) ∧
          out.2 = answer (http.URL req) (http.remote (net w) req)).

(** ** The text of an envelope

    The compact JSON text of an envelope with a time stamp and a list of
    URLs, as [json.Marshal] lays a [Response] out: the members in the order
    of the fields, the elements separated by commas, no white space. *)

Definition item (u : string) : string := js "{'url':'" +:+ u +:+ js "'}".

Fixpoint more_items (us : list string) : string :=
  match us with
  | [] => EmptyString
  | u :: us' => "," +:+ item u +:+ more_items us'
  end.

Definition items (us : list string) : string :=
  match us with
  | [] => EmptyString
  | u :: us' => item u +:+ more_items us'
  end.

Definition envelope (created : Z) (urls : list string) : string :=
  js "{'created':" +:+ pretty created
  +:+ js ",'data':[" +:+ items urls +:+ "]}".

(** A byte of ASCII that stands for itself inside a JSON string. *)
Definition plain_ascii (c : ascii) : bool := plain c && (byte c <? 128).

Fixpoint plain_ascii_text (s : string) : bool :=
  match s with
  | EmptyString => true
  | String c rest => plain_ascii c && plain_ascii_text rest
  end.

(** The JSON value of an element of [data]. *)
Definition item_value (u : string) : json.value :=
  json.JObject [("url", json.JString u)].

Definition int64 (v : Z) : Prop := - 2 ^ 63 <= v < 2 ^ 63.

(** Text in which every byte is ASCII. *)
Fixpoint ascii_text (s : string) : bool :=
  match s with
  | EmptyString => true
  | String c rest => (byte c <? 128) && ascii_text rest
  end.

(** The digits [randomBoundary] writes: lower-case hexadecimal. *)
Definition lower_hex (c : ascii) : bool :=
  json.isDigit c || ((97 <=? byte c) && (byte c <=? 102)).

Fixpoint lower_hex_text (s : string) : bool :=
  match s with
  | EmptyString => true
  | String c rest => lower_hex c && lower_hex_text rest
  end.

(** A byte that HTML gives no meaning to and that is no control
    character. *)
Definition html_safe (c : ascii) : bool :=
  (32 <=? byte c) &&
  negb ((byte c =? 60) || (byte c =? 62) || (byte c =? 38)).

Fixpoint html_safe_text (s : string) : bool :=
  match s with
  | EmptyString => true
  | String c rest => html_safe c && html_safe_text rest
  end.

(** ** Sample inputs *)

Definition sample_boundary : string :=
  "5f2a9c0e7b1d4f6a8c3e0b9d7f5a2c4e6b8d0f1a3c5e7b9d1f3a5c7e9b0d".

Definition sample_files : os.FS := fun l =>
  if decide (l = 1%N)
  then {| os.name := "otter.png"; os.unread := "image-bytes";
          os.fault := None |}
  else {| os.name := "mask.png"; os.unread := "mask-bytes";
          os.fault := None |}.

(** A world whose remote service answers every request with the given
    status and body. *)
Definition stub (status : Z) (body : string) : World :=
  {| files := sample_files;
     net := {| http.wire := [];
               http.remote := fun _ =>
                 inr {| http.StatusCode := status; http.RespBody := body |};
               http.url_Parse := fun _ => None |};
     rand := sample_boundary |}.

Definition one_image : string := js "{'created':1,'data':[{'url':'u'}]}".

(** The same world, with an image whose reading fails with EIO once its
    first bytes have been delivered. *)
Definition faulty_image (w : World) : World :=
  {| files := <[1%N := {| os.name := "otter.png"; os.unread := "image-";
                          os.fault := Some (syscall_Errno 5) |}]> (files w);
     net := net w;
     rand := rand w |}.

(** A pointer to an [int] holding 512, and one to an [int] holding 3, at
    addresses of the Go heap (0xc000012120 and 0xc000012128). *)
Definition size512 : int_ptr := IntPtr 824633794848 Medium.
Definition count3 : int_ptr := IntPtr 824633794856 3.

(** A world whose network fails every exchange with the given error. *)
Definition unreachable (cause : error) : World :=
  {| files := sample_files;
     net := {| http.wire := [];
               http.remote := fun _ => inl cause;
               http.url_Parse := fun _ => None |};
     rand := sample_boundary |}.

Definition connection_refused : error :=
  errors_New "dial tcp 127.0.0.1:443: connect: connection refused".

(** The body of a response with two images, as the service sends it: the
    text of the envelope and a line feed. *)
Definition sample_urls : list string :=
  ["https://example.com/a.png"; "https://example.com/b.png?st=1&se=2"].

Definition two_images : string :=
  envelope 1700000000 sample_urls +:+ str1 LF.

(** The body [one_image] without its last two bytes. *)
Definition cut_image : string := js "{'created':1,'data':[{'url':'u'}".

(** A prompt with markup, a quote, a backslash and a line feed. *)
Definition markup_prompt : string :=
  js "<b>a 'horse'</b> & \cart" +:+ str1 LF.

(** * Properties *)

(** ** Strings *)

Lemma append_cons (x : ascii) (a b : string) :
  String x a +:+ b = String x (a +:+ b).
Proof. reflexivity. Qed.

Lemma append_nil_l (a : string) : EmptyString +:+ a = a.
Proof. reflexivity. Qed.

Lemma append_assoc (a b c : string) : (a +:+ b) +:+ c = a +:+ (b +:+ c).
Proof.
  induction a as [|x a IH]; [reflexivity|].
  by rewrite !append_cons, IH.
Qed.

Lemma append_nil_r (a : string) : a +:+ EmptyString = a.
Proof.
  induction a as [|x a IH]; [reflexivity|].
  by rewrite append_cons, IH.
Qed.

Lemma append_length (a b : string) :
  String.length (a +:+ b) = (String.length a + String.length b)%nat.
Proof.
  induction a as [|x a IH]; [reflexivity|].
  rewrite append_cons. cbn. by rewrite IH.
Qed.

(** Two texts of the same length that start equal texts are equal. *)
Lemma append_inv_length (a b c d : string) :
  String.length a = String.length b → a +:+ c = b +:+ d → a = b.
Proof.
  revert b. induction a as [|x a IH]; intros [|y b] Hlen Heq;
    try discriminate; [reflexivity|].
  rewrite !append_cons in Heq. injection Heq as -> Heq.
  f_equal. apply IH; [by injection Hlen | done].
Qed.

(** ** Decimal numbers *)

Lemma pretty_N_Z (a : N) : pretty a = pretty (Z.of_N a).
Proof. by destruct a. Qed.

Lemma pretty_N_Z_inj (a : N) (v : Z) : pretty a = pretty v → Z.of_N a = v.
Proof. rewrite pretty_N_Z. apply (inj pretty). Qed.

(** [AxA] and [BxB] are the same text only if [A] and [B] are. *)
Lemma doubled_inj (a b : string) :
  a +:+ "x" +:+ a = b +:+ "x" +:+ b → a = b.
Proof.
  intros Heq. apply (append_inv_length _ _ _ _) with (2 := Heq).
  apply (f_equal String.length) in Heq.
  rewrite !append_length in Heq. cbn in Heq. lia.
Qed.

Lemma Sprintf_dxd_pointer (p : int_ptr) :
  Z.of_N (address p) ≠ pointee p →
  fmt.Sprintf_dxd (fmt.pointer_operand p) (fmt.pointer_operand p)
  ≠ fmt.Sprintf_dxd (fmt.int_operand (pointee p)) (fmt.int_operand (pointee p)).
Proof.
  intros Hne Heq. apply Hne, pretty_N_Z_inj, doubled_inj, Heq.
Qed.

Lemma Sprintf_d_pointer (p : int_ptr) :
  Z.of_N (address p) ≠ pointee p →
  fmt.Sprintf_d (fmt.pointer_operand p)
  ≠ fmt.Sprintf_d (fmt.int_operand (pointee p)).
Proof. intros Hne Heq. apply Hne, pretty_N_Z_inj, Heq. Qed.

(** ** The operations unfolded *)

Arguments http.Header_Set : simpl never.
Arguments json.Decode : simpl never.
Arguments json.encode_fields : simpl never.
Arguments json.GenerateRequest_fields : simpl never.

Ltac run :=
  unfold func, mbind, Go_bind, on_net, on_files, check, randomBoundary,
    Return, mret, Go_ret, http.NewRequest, http.Do, os.Name, io.Copy,
    pointerizeString, json.Marshal; cbn.

Ltac strings :=
  unfold multipart.write; cbn;
  rewrite ?append_nil_l, ?append_nil_r, ?append_assoc; cbn;
  rewrite ?append_nil_l, ?append_nil_r.

(** The switch on the status code and the decoding that follows it, as
    they stand at the end of each operation. *)
Lemma reply_tail resp (w : World) :
  (if negb (http.StatusCode resp =? 200) then
      if http.StatusCode resp =? 400 then
        Return nil_slice (Some (errors_New "bad request"))
      else if http.StatusCode resp =? 401 then
        Return nil_slice (Some (errors_New "unauthorized"))
      else if http.StatusCode resp =? 403 then
        Return nil_slice (Some (errors_New "forbidden"))
      else if http.StatusCode resp =? 404 then
        Return nil_slice (Some (errors_New "not found"))
      else if http.StatusCode resp =? 429 then
        Return nil_slice (Some (errors_New "too many requests"))
      else if http.StatusCode resp =? 500 then
        Return nil_slice (Some (errors_New "internal server error"))
      else if http.StatusCode resp =? 502 then
        Return nil_slice (Some (errors_New "bad gateway"))
      else if http.StatusCode resp =? 503 then
        Return nil_slice (Some (errors_New "service unavailable"))
      else if http.StatusCode resp =? 504 then
        Return nil_slice (Some (errors_New "gateway timeout"))
      else
        Return nil_slice (Some (errors_New "unknown error"))
    else
    let response := zero_Response in
    let '(response, err) := json.Decode (http.RespBody resp) response in
    if err is Some err then Return nil_slice (Some err) else
    Return (Data response) None) w = (w, @inl result Empty_set (reply resp)).
Proof.
  unfold reply, status_text, Return.
  destruct (http.StatusCode resp =? 200) eqn:E200; cbn.
  - destruct (json.Decode _ _) as [r [e|]]; reflexivity.
  - repeat (match goal with |- context [if ?b then _ else _] => destruct b end;
            [reflexivity|]).
    reflexivity.
Qed.

Lemma URL_Header_Set k v r : http.URL (http.Header_Set k v r) = http.URL r.
Proof. reflexivity. Qed.

Ltac finish_dispatch remote :=
  rewrite ?URL_Header_Set; cbn; strings;
  unfold multipart.FormDataContentType; cbn;
  match goal with
  | |- context [remote ?r] => destruct (remote r) as [err|resp]
  end; cbn; [reflexivity | rewrite reply_tail; reflexivity].

Lemma Generate_unfold c prompt size n user responseType w :
  Generate c prompt size n user responseType w =
  dispatch c (baseURL c +:+ "/generations") "application/json"
    (generate_body prompt n (sizeStr_of size) responseType user) w.
Proof.
  destruct w as [fs [wire remote parse] rnd].
  unfold Generate, dispatch, generate_body, sizeStr_of, request, sent, answer.
  run.
  destruct (parse _) as [err|]; cbn; [reflexivity|].
  finish_dispatch remote.
Qed.

Lemma Edit_unfold c prompt i m size n user responseType w :
  Edit c prompt (Some i) (Some m) size n user responseType w =
  let img := files w i in
  let fs1 := consumed i (files w) in
  let msk := fs1 m in
  let fs2 := consumed m fs1 in
  match read_error img with
  | Some err => (with_files fs1 w, (nil_slice, Some err))
  | None =>
    match read_error msk with
    | Some err => (with_files fs2 w, (nil_slice, Some err))
    | None =>
      dispatch c (baseURL c +:+ "/edits") (contentType (rand w))
        (edit_form (rand w) prompt img msk (nStr_of n) (sizeStr_of size)
           user responseType)
        (with_files fs2 w)
    end
  end.
Proof.
  destruct w as [fs [wire remote parse] rnd].
  unfold Edit, dispatch, request, sent, answer, with_files, read_error,
    consumed, edit_form, file_part, options, optional_field, field_part,
    nStr_of, sizeStr_of, contentType.
  run.
  destruct (os.fault (fs i)) as [e1|]; cbn; [reflexivity|].
  match goal with |- context [os.fault ?f] => destruct (os.fault f) as [e2|] end;
    cbn; [reflexivity|].
  destruct n as [pn|], size as [ps|], user as [u|], responseType as [rt|]; cbn.
  all: destruct (parse _) as [err|]; cbn; [reflexivity|].
  all: finish_dispatch remote.
Qed.

Lemma Variation_unfold c i size n user responseType w :
  Variation c (Some i) size n user responseType w =
  let img := files w i in
  let fs1 := consumed i (files w) in
  match read_error img with
  | Some err => (with_files fs1 w, (nil_slice, Some err))
  | None =>
      dispatch c (baseURL c +:+ "/variations") (contentType (rand w))
        (variation_form (rand w) img (nStr_of n) (sizeStr_of size)
           user responseType)
        (with_files fs1 w)
  end.
Proof.
  destruct w as [fs [wire remote parse] rnd].
  unfold Variation, dispatch, request, sent, answer, with_files, read_error,
    consumed, variation_form, file_part, options, optional_field, field_part,
    nStr_of, sizeStr_of, contentType.
  run.
  destruct (os.fault (fs i)) as [e1|]; cbn; [reflexivity|].
  destruct n as [pn|], size as [ps|], user as [u|], responseType as [rt|]; cbn.
  all: destruct (parse _) as [err|]; cbn; [reflexivity|].
  all: finish_dispatch remote.
Qed.

Lemma Edit_nil_image c prompt mask size n user responseType w :
  Edit c prompt None mask size n user responseType w
  = (w, (nil_slice, Some (errors_New "image is nil"))).
Proof. reflexivity. Qed.

Lemma Edit_nil_mask c prompt i size n user responseType w :
  Edit c prompt (Some i) None size n user responseType w
  = (w, (nil_slice, Some (errors_New "mask is nil"))).
Proof. reflexivity. Qed.

Lemma Variation_nil_image c size n user responseType w :
  Variation c None size n user responseType w
  = (w, (nil_slice, Some (errors_New "image is nil"))).
Proof. reflexivity. Qed.

(** ** What an exchange tells *)

Lemma not_extended {A} (l : list A) (x : A) : l ≠ (l ++ [x])%list.
Proof.
  intros H. apply (f_equal length) in H. rewrite length_app in H.
  cbn in H. lia.
Qed.

Lemma dispatch_exchanged c url ct body w0 w req resp :
  http.wire (net w) = http.wire (net w0) →
  http.remote (net w) = http.remote (net w0) →
  exchanged w0 (dispatch c url ct body w) req resp →
  req = request c url ct body ∧ (dispatch c url ct body w).2 = reply resp.
Proof.
  intros Hwire Hremote [Hsent Hresp]. unfold dispatch in *.
  destruct (http.url_Parse (net w) url) as [err|]; cbn in *.
  - rewrite Hwire in Hsent. by apply not_extended in Hsent.
  - rewrite Hwire in Hsent. apply app_inv_head in Hsent.
    injection Hsent as <-. split; [done|].
    by rewrite Hremote, Hresp.
Qed.

Lemma Generate_exchanged c prompt size n user responseType w req resp :
  exchanged w (Generate c prompt size n user responseType w) req resp →
  req = request c (baseURL c +:+ "/generations") "application/json"
          (generate_body prompt n (sizeStr_of size) responseType user) ∧
  (Generate c prompt size n user responseType w).2 = reply resp.
Proof. rewrite Generate_unfold. by apply dispatch_exchanged. Qed.

Lemma Edit_exchanged c prompt image mask size n user responseType w req resp :
  exchanged w (Edit c prompt image mask size n user responseType w) req resp →
  (Edit c prompt image mask size n user responseType w).2 = reply resp ∧
  ∃ i m, image = Some i ∧ mask = Some m ∧
    req = request c (baseURL c +:+ "/edits") (contentType (rand w))
            (edit_form (rand w) prompt (files w i) (consumed i (files w) m)
               (nStr_of n) (sizeStr_of size) user responseType).
Proof.
  destruct image as [i|]; [destruct mask as [m|]|].
  - rewrite Edit_unfold. cbn zeta.
    destruct (read_error (files w i)) as [e1|].
    { intros [H _]. cbn in H. by apply not_extended in H. }
    destruct (read_error (consumed i (files w) m)) as [e2|].
    { intros [H _]. cbn in H. by apply not_extended in H. }
    intros H. apply dispatch_exchanged in H as [-> ->]; [|done..].
    split; [done|]. by exists i, m.
  - rewrite Edit_nil_mask. intros [H _]. cbn in H. by apply not_extended in H.
  - rewrite Edit_nil_image. intros [H _]. cbn in H. by apply not_extended in H.
Qed.

Lemma Variation_exchanged c image size n user responseType w req resp :
  exchanged w (Variation c image size n user responseType w) req resp →
  (Variation c image size n user responseType w).2 = reply resp ∧
  ∃ i, image = Some i ∧
    req = request c (baseURL c +:+ "/variations") (contentType (rand w))
            (variation_form (rand w) (files w i)
               (nStr_of n) (sizeStr_of size) user responseType).
Proof.
  destruct image as [i|].
  - rewrite Variation_unfold. cbn zeta.
    destruct (read_error (files w i)) as [e1|].
    { intros [H _]. cbn in H. by apply not_extended in H. }
    intros H. apply dispatch_exchanged in H as [-> ->]; [|done..].
    split; [done|]. by exists i.
  - rewrite Variation_nil_image. intros [H _]. cbn in H.
    by apply not_extended in H.
Qed.

(** ** The scanner on the text the encoder writes *)

Lemma scan_run_cons c rest s stack :
  scan_run s stack (String c rest) =
  match json.scan_step s stack c with
  | json.scanContinue s' stack' => scan_run s' stack' rest
  | _ => None
  end.
Proof. reflexivity. Qed.

Lemma scan_run_app a b s stack :
  scan_run s stack (a +:+ b) =
  match scan_run s stack a with
  | Some (s', stack') => scan_run s' stack' b
  | None => None
  end.
Proof.
  revert s stack. induction a as [|c a IH]; intros s stack; [reflexivity|].
  rewrite append_cons, !scan_run_cons.
  destruct (json.scan_step s stack c); [apply IH | done..].
Qed.

Lemma readValue_from_app a b s stack s' stack' nonSpace :
  scan_run s stack a = Some (s', stack') →
  ∃ nonSpace',
    json.readValue_from s stack nonSpace (a +:+ b)
    = json.readValue_from s' stack' nonSpace' b.
Proof.
  revert s stack nonSpace. induction a as [|c a IH]; intros s stack nonSpace.
  - intros [= -> ->]. by exists nonSpace.
  - rewrite append_cons, scan_run_cons. cbn [json.readValue_from].
    destruct (json.scan_step s stack c) as [s1 stack1| |]; [|done..].
    apply IH.
Qed.

Lemma snoc_append acc c rest :
  json.snoc acc c +:+ rest = acc +:+ String c rest.
Proof. unfold json.snoc, str1. by rewrite append_assoc. Qed.

Lemma scan_plain c acc stack :
  plain c = true →
  json.scan_step (json.stateInString acc) stack c
  = json.scanContinue (json.stateInString (json.snoc acc c)) stack.
Proof.
  unfold plain. cbn. intros H.
  destruct (byte c =? 34); [by rewrite andb_false_r in H|].
  destruct (byte c =? 92); [by rewrite andb_false_r in H|].
  destruct (Z.ltb_spec (byte c) 32) as [Hlt|]; [|done].
  destruct (Z.leb_spec 32 (byte c)); [lia | done].
Qed.

Lemma scan_plain_text text acc stack :
  plain_text text = true →
  scan_run (json.stateInString acc) stack text
  = Some (json.stateInString (acc +:+ text), stack).
Proof.
  revert acc. induction text as [|c text IH]; intros acc.
  - by rewrite append_nil_r.
  - cbn [plain_text]. intros [Hc Ht]%andb_true_iff.
    rewrite scan_run_cons, scan_plain by done.
    rewrite IH by done. by rewrite snoc_append.
Qed.

Ltac flatten_strings :=
  unfold json.snoc, str1;
  rewrite ?append_assoc, ?append_cons, ?append_nil_l, ?append_nil_r.

(** An ASCII byte, as it is or escaped, is read back as string content. *)
Lemma scan_ascii b acc stack :
  (byte b <? 128) = true →
  scan_run (json.stateInString acc) stack
    (if json.htmlSafeSet b then str1 b else json.escape_byte b)
  = Some (json.stateInString
            (acc +:+ (if json.htmlSafeSet b then str1 b
                      else json.escape_byte b)), stack).
Proof.
  destruct b as [[] [] [] [] [] [] [] []]; intros H; try discriminate H;
    match goal with
    | |- context [if ?c then ?x else ?y] =>
        let v := eval vm_compute in (if c then x else y) in
        change (if c then x else y) with v
    end;
    simpl; flatten_strings; reflexivity.
Qed.

Lemma first_lo s0 sz lo hi :
  utf8.first s0 = Some (sz, (lo, hi)) →
  128 <= lo ∧ (sz = 2 ∨ sz = 3 ∨ sz = 4)%nat.
Proof.
  unfold utf8.first.
  repeat (match goal with |- context [if ?b then _ else _] => destruct b end;
          [intros [= <- <- <-]; lia|]).
  discriminate.
Qed.

Lemma in_range_lo lo hi a :
  128 <= lo → utf8.in_range lo hi a = true → (128 <=? byte a) = true.
Proof.
  unfold utf8.in_range. intros Hlo [H1 H2]%andb_true_iff.
  apply Z.leb_le. apply Z.leb_le in H1. lia.
Qed.

(** The bytes after the first byte of a well-formed multi-byte sequence are
    there and are not ASCII. *)
Lemma DecodeRune_continues b rest c size :
  (byte b <? 128) = false →
  utf8.DecodeRuneInString (take_bytes 4 (String b rest)) = (c, size) →
  ((c =? utf8.RuneError) && (size =? 1)%nat) = false →
  continues (size - 1) rest = true.
Proof.
  intros Hb. cbn [take_bytes]. unfold utf8.DecodeRuneInString. rewrite Hb.
  destruct (utf8.first b) as [[sz [lo hi]]|] eqn:Hfirst;
    [|by intros [= <- <-]].
  apply first_lo in Hfirst as [Hlo Hsz].
  destruct rest as [|s1 rest]; cbn [take_bytes]; [by intros [= <- <-]|].
  destruct (utf8.in_range lo hi s1) eqn:H1; cbn [negb];
    [|by intros [= <- <-]].
  apply (in_range_lo _ _ _ Hlo) in H1.
  destruct (sz <=? 2)%nat.
  { intros [= <- <-] _. cbn. by rewrite H1. }
  destruct rest as [|s2 rest]; cbn [take_bytes]; [by intros [= <- <-]|].
  destruct (utf8.in_range 128 191 s2) eqn:H2; cbn [negb];
    [|by intros [= <- <-]].
  apply in_range_lo in H2; [|lia].
  destruct (sz <=? 3)%nat.
  { intros [= <- <-] _. cbn. by rewrite H1, H2. }
  destruct rest as [|s3 rest]; cbn [take_bytes]; [by intros [= <- <-]|].
  destruct (utf8.in_range 128 191 s3) eqn:H3; cbn [negb];
    [|by intros [= <- <-]].
  apply in_range_lo in H3; [|lia].
  intros [= <- <-] _. cbn. by rewrite H1, H2, H3.
Qed.

Lemma plain_high c : (128 <=? byte c) = true → plain c = true.
Proof.
  intros H%Z.leb_le. unfold plain.
  destruct (Z.leb_spec 32 (byte c)); [|lia].
  destruct (Z.eqb_spec (byte c) 34); [lia|].
  destruct (Z.eqb_spec (byte c) 92); [lia|]. done.
Qed.

Ltac scan_literal acc stack :=
  match goal with
  | |- context [scan_run (json.stateInString acc) stack ?lit] =>
      let v := eval simpl in (scan_run (json.stateInString acc) stack lit) in
      change (scan_run (json.stateInString acc) stack lit) with v;
      cbv beta iota
  end.

(** The text the encoder writes for the content of a string is read back
    by the scanner as the content of a string. *)
Lemma scan_appendString_from s m acc stack :
  pending_ok m s = true →
  scan_run (json.stateInString acc) stack (json.appendString_from m s)
  = Some (json.stateInString (acc +:+ json.appendString_from m s), stack).
Proof.
  revert m acc. induction s as [|b rest IH]; intros m acc Hm.
  { destruct m; cbn; by rewrite append_nil_r. }
  assert (∀ acc,
    scan_run (json.stateInString acc) stack
      (json.appendString_from json.Scan (String b rest))
    = Some (json.stateInString
              (acc +:+ json.appendString_from json.Scan (String b rest)),
            stack)) as Hscan.
  { clear acc Hm. intros acc. cbn [json.appendString_from].
    destruct (byte b <? 128) eqn:Hb.
    - rewrite scan_run_app, scan_ascii by done.
      rewrite IH by done. by rewrite append_assoc.
    - destruct (utf8.DecodeRuneInString _) as [c size] eqn:Hdec.
      destruct ((c =? utf8.RuneError) && (size =? 1)%nat) eqn:Hbad.
      { rewrite scan_run_app. scan_literal acc stack.
        rewrite IH by done. flatten_strings. reflexivity. }
      destruct ((c =? 8232) || (c =? 8233)) eqn:Hsep.
      { rewrite !scan_run_app. scan_literal acc stack.
        assert (json.hex_digit (Z.land c 15) = "8"%char ∨
                json.hex_digit (Z.land c 15) = "9"%char) as [->| ->].
        { apply orb_true_iff in Hsep as [->%Z.eqb_eq| ->%Z.eqb_eq];
            [by left | by right]. }
        all: unfold str1 at 1; rewrite append_cons, append_nil_l, scan_run_cons;
          simpl json.scan_step; cbv beta iota;
          rewrite IH by done; flatten_strings; reflexivity. }
      rewrite scan_run_cons, scan_plain.
      2:{ apply plain_high. apply Z.leb_le. apply Z.ltb_ge in Hb. lia. }
      rewrite IH by (cbn; by eapply DecodeRune_continues).
      by rewrite snoc_append. }
  destruct m as [|[|k]|[|k]]; try apply Hscan.
  - cbn in Hm. apply andb_true_iff in Hm as [Hc Hk].
    cbn [json.appendString_from].
    rewrite scan_run_cons, scan_plain by (by apply plain_high).
    rewrite IH by done. by rewrite snoc_append.
  - cbn [json.appendString_from]. by apply IH.
Qed.

(** *** Numbers *)

Lemma all_digits_app a b :
  all_digits a = true → all_digits b = true → all_digits (a +:+ b) = true.
Proof.
  intros Ha Hb. induction a as [|c a IH]; [done|].
  rewrite append_cons. cbn in *.
  apply andb_true_iff in Ha as [Hc Ha]. rewrite Hc. by apply IH.
Qed.

Lemma pretty_N_char_digit x : json.isDigit (pretty_N_char x) = true.
Proof. unfold pretty_N_char. by repeat case_match. Qed.

Lemma pretty_N_char_leading x :
  (0 < x < 10)%N →
  (49 <=? byte (pretty_N_char x)) && (byte (pretty_N_char x) <=? 57) = true.
Proof.
  intros Hx. destruct x as [|p]; [lia|].
  do 4 (try destruct p as [p|p|]); try reflexivity; lia.
Qed.

(** The decimal text of a positive number is a digit from 1 to 9 followed
    by digits. *)
Lemma pretty_N_go_digits x s :
  (0 < x)%N →
  ∃ d ds, pretty_N_go x s = String d (ds +:+ s) ∧
    (49 <=? byte d) && (byte d <=? 57) = true ∧ all_digits ds = true.
Proof.
  revert s. induction (N.lt_wf_0 x) as [x _ IH]; intros s Hpos.
  rewrite pretty_N_go_step by done.
  destruct (decide (x < 10)%N) as [Hlt|Hge].
  - rewrite N.div_small, N.mod_small by done. rewrite pretty_N_go_0.
    exists (pretty_N_char x), EmptyString. split; [done|].
    split; [by apply pretty_N_char_leading | done].
  - destruct (IH (x `div` 10)%N) with
      (s := String (pretty_N_char (x `mod` 10)) s) as (d & ds & -> & Hd & Hds).
    { apply N.div_lt; lia. }
    { apply N.div_str_pos; lia. }
    exists d, (ds +:+ str1 (pretty_N_char (x `mod` 10))).
    split; [by rewrite append_assoc|]. split; [done|].
    apply all_digits_app; [done|]. cbn. by rewrite pretty_N_char_digit.
Qed.

Lemma scan_digit lit stack c :
  json.isDigit c = true →
  json.scan_step (json.state1 lit) stack c
  = json.scanContinue (json.state1 (json.snoc lit c)) stack.
Proof. intros H. cbn. by rewrite H. Qed.

Lemma scan_digits ds lit stack :
  all_digits ds = true →
  scan_run (json.state1 lit) stack ds = Some (json.state1 (lit +:+ ds), stack).
Proof.
  revert lit. induction ds as [|c ds IH]; intros lit.
  - by rewrite append_nil_r.
  - cbn [all_digits]. intros [Hc Hds]%andb_true_iff.
    rewrite scan_run_cons, scan_digit by done.
    rewrite IH by done. by rewrite snoc_append.
Qed.

Lemma scan_leading d stack :
  (49 <=? byte d) && (byte d <=? 57) = true →
  json.scan_step json.stateBeginValue stack d
  = json.scanContinue (json.state1 (str1 d)) stack ∧
  ∀ lit, json.scan_step (json.stateNeg lit) stack d
         = json.scanContinue (json.state1 (json.snoc lit d)) stack.
Proof.
  destruct d as [[] [] [] [] [] [] [] []]; intros H; try discriminate H;
    by split.
Qed.

Lemma pretty_positive_digits (p : positive) :
  ∃ d ds, pretty p = String d ds ∧
    (49 <=? byte d) && (byte d <=? 57) = true ∧ all_digits ds = true.
Proof.
  destruct (pretty_N_go_digits (N.pos p) EmptyString) as (d & ds & H & ?);
    [lia|].
  rewrite append_nil_r in H. by exists d, ds.
Qed.

(** The decimal text of an integer is read as a number, which the next
    byte will end. *)
Lemma scan_pretty_Z (v : Z) stack :
  ∃ s, scan_run json.stateBeginValue stack (pretty v) = Some (s, stack) ∧
       (s = json.state1 (pretty v) ∨ s = json.state0 (pretty v)).
Proof.
  destruct v as [|p|p]; unfold pretty, pretty_Z.
  - exists (json.state0 "0"). by split; [|right].
  - destruct (pretty_positive_digits p) as (d & ds & -> & Hd & Hds).
    exists (json.state1 (String d ds)). split; [|by left].
    rewrite scan_run_cons, (proj1 (scan_leading d stack Hd)).
    by rewrite scan_digits.
  - destruct (pretty_positive_digits p) as (d & ds & -> & Hd & Hds).
    exists (json.state1 ("-" +:+ String d ds)). split; [|by left].
    rewrite !append_cons, append_nil_l, scan_run_cons.
    change (json.scan_step json.stateBeginValue stack "-")
      with (json.scanContinue (json.stateNeg "-") stack).
    cbv beta iota.
    rewrite scan_run_cons, (proj2 (scan_leading d stack Hd)).
    by rewrite scan_digits.
Qed.

(** *** Members *)

Lemma after_member_comma ms s stack :
  after_member ms s stack →
  json.scan_step s stack ","
  = json.scanContinue json.stateBeginString [json.parseObjectKey ms None].
Proof.
  intros [[-> ->]|(k & lit & ms0 & [-> | ->] & -> & ->)]; reflexivity.
Qed.

Lemma after_member_close ms s stack :
  after_member ms s stack →
  json.scan_step s stack "}" = json.scanEnd (json.JObject (rev ms)).
Proof.
  intros [[-> ->]|(k & lit & ms0 & [-> | ->] & -> & ->)]; reflexivity.
Qed.

(** From where the encoder writes [next] to the value of a member. *)
Lemma scan_member_key next ms s stack k :
  ready next ms s stack →
  plain_text k = true →
  scan_run s stack (str1 next +:+ str1 dq +:+ k +:+ str1 dq +:+ ":")
  = Some (json.stateBeginValue, [json.parseObjectValue ms (Some k)]).
Proof.
  intros Hready Hk. unfold str1.
  rewrite !append_cons, !append_nil_l, scan_run_cons.
  assert (∃ s1, json.scan_step s stack next
                 = json.scanContinue s1 [json.parseObjectKey ms None] ∧
                json.scan_step s1 [json.parseObjectKey ms None] dq
                 = json.scanContinue (json.stateInString EmptyString)
                     [json.parseObjectKey ms None]) as (s1 & -> & Hq).
  { destruct Hready as [(-> & -> & -> & ->)|[-> Hafter]].
    - by exists json.stateBeginStringOrEmpty.
    - exists json.stateBeginString. split; [by apply after_member_comma | done]. }
  rewrite scan_run_cons, Hq, scan_run_app, scan_plain_text by done.
  reflexivity.
Qed.

(** The value of a member: the scanner ends just after the member. *)
Lemma scan_member_value ms k (v : json.field_value) :
  ∃ s stack,
    scan_run json.stateBeginValue [json.parseObjectValue ms (Some k)]
      (json.encode_value v) = Some (s, stack) ∧
    after_member ((k, value_of v) :: ms) s stack.
Proof.
  assert (∀ text,
    ∃ s stack,
      scan_run json.stateBeginValue [json.parseObjectValue ms (Some k)]
        (json.appendString text) = Some (s, stack) ∧
      after_member
        ((k, json.JString (json.appendString_from json.Scan text)) :: ms)
        s stack) as Hstring.
  { intros text. eexists _, _. split; [|by left].
    unfold json.appendString, str1.
    rewrite !append_cons, !append_nil_l, scan_run_cons.
    change (json.scan_step json.stateBeginValue
              [json.parseObjectValue ms (Some k)] dq)
      with (json.scanContinue (json.stateInString EmptyString)
              [json.parseObjectValue ms (Some k)]).
    cbv beta iota.
    rewrite scan_run_app, scan_appendString_from by done.
    reflexivity. }
  destruct v as [text|[p|]|[text|]]; cbn [json.encode_value value_of].
  - apply Hstring.
  - destruct (scan_pretty_Z (pointee p) [json.parseObjectValue ms (Some k)])
      as (s & Hs & Hnum).
    exists s, [json.parseObjectValue ms (Some k)]. split; [done|].
    right. by exists k, (pretty (pointee p)), ms.
  - eexists _, _. split; [reflexivity | by left].
  - apply Hstring.
  - eexists _, _. split; [reflexivity | by left].
Qed.

Lemma encode_fields_nil next :
  json.encode_fields next [] = if Ascii.eqb next "{" then "{}" else "}".
Proof. reflexivity. Qed.

Lemma encode_fields_cons next f fs :
  json.encode_fields next (f :: fs) =
  if json.omitEmpty f && json.isEmptyValue (json.contents f)
  then json.encode_fields next fs
  else str1 next +:+ str1 dq +:+ json.name f +:+ str1 dq +:+ ":"
         +:+ json.encode_value (json.contents f)
         +:+ json.encode_fields "," fs.
Proof. reflexivity. Qed.

(** The text the encoder writes for a list of fields is, up to its closing
    brace, text inside one object, and the brace closes the object with the
    members of the fields. *)
Lemma scan_encode_fields fs next ms s stack :
  ready next ms s stack →
  Forall (λ f, plain_text (json.name f) = true) fs →
  ∃ text s' stack',
    json.encode_fields next fs = text +:+ "}" ∧
    scan_run s stack text = Some (s', stack') ∧
    json.scan_step s' stack' "}"
    = json.scanEnd (json.JObject (rev ms ++ members_of fs)).
Proof.
  intros Hready Hnames. revert next ms s stack Hready.
  induction Hnames as [|f fs Hname Hnames IH]; intros next ms s stack Hready.
  - rewrite encode_fields_nil. cbn [members_of]. rewrite app_nil_r.
    destruct Hready as [(-> & -> & -> & ->)|[-> Hafter]].
    + by exists "{", json.stateBeginStringOrEmpty,
                [json.parseObjectKey [] None].
    + exists EmptyString, s, stack. split; [done|]. split; [done|].
      by apply after_member_close.
  - rewrite encode_fields_cons. cbn [members_of].
    destruct (json.omitEmpty f && json.isEmptyValue (json.contents f)).
    { by apply IH. }
    destruct (scan_member_value ms (json.name f) (json.contents f))
      as (s1 & stack1 & Hvalue & Hafter).
    destruct (IH ","%char ((json.name f, value_of (json.contents f)) :: ms)
                s1 stack1) as (text & s' & stack' & -> & Hrun & Hclose).
    { right. by split. }
    exists ((str1 next +:+ str1 dq +:+ json.name f +:+ str1 dq +:+ ":")
            +:+ json.encode_value (json.contents f) +:+ text), s', stack'.
    split; [by rewrite !append_assoc|]. split.
    + rewrite scan_run_app, (scan_member_key _ _ _ _ _ Hready Hname).
      by rewrite scan_run_app, Hvalue.
    + rewrite Hclose. cbn [rev]. by rewrite <- app_assoc.
Qed.

Lemma checkValid_from_app a b s stack s' stack' :
  scan_run s stack a = Some (s', stack') →
  json.checkValid_from s stack (a +:+ b) = json.checkValid_from s' stack' b.
Proof.
  revert s stack. induction a as [|c a IH]; intros s stack.
  - by intros [= -> ->].
  - rewrite append_cons, scan_run_cons. cbn [json.checkValid_from].
    destruct (json.scan_step s stack c) as [s1 stack1| |]; [|done..].
    apply IH.
Qed.

(** The body of [Generate] is valid JSON: an object with the members of
    the fields that are not left out. *)
Theorem generate_body_is_an_object prompt n sizeStr responseType user :
  let body := generate_body prompt n sizeStr responseType user in
  let fields :=
    json.GenerateRequest_fields
      (GenerateRequest.Build prompt n sizeStr responseType user) in
  json.Valid body = true ∧
  json.readValue body = inr (json.JObject (members_of fields)).
Proof.
  intros body fields.
  destruct (scan_encode_fields fields "{"%char [] json.stateBeginValue [])
    as (text & s & stack & Htext & Hrun & Hclose).
  { left. done. }
  { unfold fields, json.GenerateRequest_fields.
    repeat constructor. }
  assert (body = text +:+ "}") as -> by done.
  split.
  - unfold json.Valid. rewrite (checkValid_from_app _ _ _ _ _ _ Hrun).
    cbn [json.checkValid_from]. rewrite Hclose.
    destruct s; try done; destruct stack; try done.
    all: try (cbn in Hclose; discriminate Hclose).
  - unfold json.readValue.
    destruct (readValue_from_app text "}" _ _ _ _ false Hrun) as [ns ->].
    cbn [json.readValue_from]. by rewrite Hclose.
Qed.

(** *** Envelopes without elements *)

Lemma store_Response_members_nothing ms r :
  Forall brings_nothing ms →
  elems (Data r) = [] →
  ∃ r', json.store_Response_members ms r None = (r', None) ∧
        elems (Data r') = [] ∧
        (Forall (λ m, names_data m = false) ms → Data r' = Data r).
Proof.
  intros Hms. revert r. induction Hms as [|[k v] ms Hm Hms IH]; intros r Hr.
  { exists r. by repeat split. }
  cbn [json.store_Response_members]. unfold brings_nothing, names_data in *.
  cbn [fst snd] in *.
  destruct (json.matches (json.unquote k) "created") eqn:Hc.
  - assert (∃ x, json.store_int64 v (Created r) None = (x, None))
      as [x ->].
    { destruct Hm as [->|(lit & -> & [x Hx])]; cbn; [eauto|].
      rewrite Hx. eauto. }
    destruct (IH {| Created := x; Data := Data r |} Hr)
      as (r' & -> & Hr' & Hsame).
    exists r'. repeat split; [done|].
    intros H. apply Hsame. by inversion H.
  - destruct (json.matches (json.unquote k) "data") eqn:Hd'; cbn [negb andb].
    + assert (∃ d, json.store_slice v (Data r) None = (d, None) ∧
                   elems d = []) as (d & -> & Hd).
      { destruct Hm as [-> | ->]; cbn; eexists; split; reflexivity. }
      destruct (IH {| Created := Created r; Data := d |} Hd)
        as (r' & -> & Hr' & _).
      exists r'. repeat split; [done|].
      intros H. inversion H as [|? ? Hk _]; subst. cbn [fst] in Hk.
      rewrite Hc, Hd' in Hk. discriminate Hk.
    + destruct (IH r Hr) as (r' & -> & Hr' & Hsame).
      exists r'. repeat split; [done|].
      intros H. apply Hsame. by inversion H.
Qed.

Lemma Decode_nothing body ms :
  json.readValue body = inr (json.JObject ms) →
  Forall brings_nothing ms →
  ∃ r, json.Decode body zero_Response = (r, None) ∧
       elems (Data r) = [] ∧
       (Forall (λ m, names_data m = false) ms → Data r = nil_slice).
Proof.
  intros Hread Hms. unfold json.Decode. rewrite Hread.
  cbn [json.unmarshal].
  by apply (store_Response_members_nothing ms zero_Response).
Qed.

(** ** The errors of the decoder *)

Lemma readValue_from_error s stack nonSpace buf e :
  json.readValue_from s stack nonSpace buf = inl e →
  e = io_EOF ∨ e = io_ErrUnexpectedEOF ∨ e = json_SyntaxError.
Proof.
  revert s stack nonSpace.
  induction buf as [|c buf IH]; intros s stack nonSpace; cbn.
  - destruct (json.scan_step s stack _); intros [= <-];
      destruct nonSpace; auto.
  - destruct (json.scan_step s stack c) as [s' stack'|v|]; [|done|].
    + apply IH.
    + intros [= <-]. auto.
Qed.

Create HintDb typed.

Lemma typed_None : typed None.
Proof. intros e [=]. Qed.

Lemma typed_saveError saved v :
  typed saved → typed (json.saveError saved (json_UnmarshalTypeError v)).
Proof.
  intros H. destruct saved as [e|]; cbn; [done|].
  intros e [= <-]. by exists v.
Qed.

Lemma typed_mismatch saved v : typed saved → typed (json.mismatch v saved).
Proof. apply typed_saveError. Qed.

#[local] Hint Resolve typed_None typed_saveError typed_mismatch : typed.

Lemma typed_store_string v cur saved :
  typed saved → typed (json.store_string v cur saved).2.
Proof. destruct v; cbn; auto with typed. Qed.

Lemma typed_store_int64 v cur saved :
  typed saved → typed (json.store_int64 v cur saved).2.
Proof.
  destruct v; cbn; auto with typed.
  destruct (json.ParseInt _); cbn; auto with typed.
Qed.

#[local] Hint Resolve typed_store_string typed_store_int64 : typed.

Lemma typed_store_Datum_members ms d saved :
  typed saved → typed (json.store_Datum_members ms d saved).2.
Proof.
  revert d saved. induction ms as [|[k v] ms IH]; intros d saved H; cbn;
    [done|].
  destruct (json.matches _ _); [|by apply IH].
  pose proof (typed_store_string v (URL d) saved H) as H'.
  destruct (json.store_string v (URL d) saved) as [u saved']. by apply IH.
Qed.

Lemma typed_store_Datum v d saved :
  typed saved → typed (json.store_Datum v d saved).2.
Proof.
  destruct v; cbn; auto with typed. apply typed_store_Datum_members.
Qed.

Lemma typed_store_elements vs i array saved :
  typed saved → typed (json.store_elements vs i array saved).2.
Proof.
  revert i array saved.
  induction vs as [|v vs IH]; intros i array saved H; cbn; [done|].
  match goal with
  | |- context [json.store_Datum v ?d saved] =>
      pose proof (typed_store_Datum v d saved H) as H';
      destruct (json.store_Datum v d saved) as [d' saved']
  end.
  by apply IH.
Qed.

Lemma typed_store_slice v cur saved :
  typed saved → typed (json.store_slice v cur saved).2.
Proof.
  intros H. destruct v; cbn; auto with typed.
  match goal with
  | |- context [json.store_elements ?vs ?i ?a saved] =>
      pose proof (typed_store_elements vs i a saved H) as H';
      destruct (json.store_elements vs i a saved) as [a' saved']
  end.
  done.
Qed.

Lemma typed_store_Response_members ms r saved :
  typed saved → typed (json.store_Response_members ms r saved).2.
Proof.
  revert r saved. induction ms as [|[k v] ms IH]; intros r saved H; cbn;
    [done|].
  destruct (json.matches _ "created").
  { pose proof (typed_store_int64 v (Created r) saved H) as H'.
    destruct (json.store_int64 v (Created r) saved) as [x saved'].
    by apply IH. }
  destruct (json.matches _ "data"); [|by apply IH].
  pose proof (typed_store_slice v (Data r) saved H) as H'.
  destruct (json.store_slice v (Data r) saved) as [x saved']. by apply IH.
Qed.

Lemma typed_unmarshal v r : typed (json.unmarshal v r).2.
Proof.
  destruct v; cbn;
    try (apply typed_store_Response_members, typed_None);
    try apply typed_None;
    intros e [= <-]; by eexists.
Qed.

Lemma Decode_error body r0 r e :
  json.Decode body r0 = (r, Some e) → decode_error e.
Proof.
  unfold json.Decode, json.readValue, decode_error.
  destruct (json.readValue_from _ _ _ body) as [e'|v] eqn:Hread.
  - intros [= _ <-]. apply readValue_from_error in Hread. tauto.
  - intros H. pose proof (typed_unmarshal v r0) as Ht.
    rewrite H in Ht. right; right; right. by apply Ht.
Qed.

Lemma decode_error_not_status e code :
  decode_error e → e ≠ errors_New (status_text code).
Proof.
  unfold status_text, io_EOF, io_ErrUnexpectedEOF.
  intros [->|[->|[->|[v ->]]]]; try discriminate;
    repeat (match goal with |- context [if ?b then _ else _] => destruct b end;
            [discriminate|]);
    discriminate.
Qed.

(** A text that is valid JSON has a first value: the decoder differs from
    [json.Valid] only in what it makes of the bytes after that value. *)
Lemma checkValid_readValue s stack nonSpace data :
  json.checkValid_from s stack data = true →
  ∃ v, json.readValue_from s stack nonSpace data = inr v.
Proof.
  revert s stack nonSpace.
  induction data as [|c data IH]; intros s stack nonSpace; cbn.
  - destruct (json.scan_step s stack _); try done. eauto.
  - destruct (json.scan_step s stack c) as [s' stack'|v|]; try done.
    + apply IH.
    + eauto.
Qed.

Lemma Valid_readValue data :
  json.Valid data = true → ∃ v, json.readValue data = inr v.
Proof. apply checkValid_readValue. Qed.

(** ** The shape of the results *)

Lemma reply_shape resp : (reply resp).2 = None ∨ (reply resp).1 = nil_slice.
Proof.
  unfold reply. destruct (_ =? 200); [|by right].
  destruct (json.Decode _ _) as [r [e|]]; [by right | by left].
Qed.

Lemma dispatch_shape c url ct body w :
  (dispatch c url ct body w).2.2 = None ∨
  (dispatch c url ct body w).2.1 = nil_slice.
Proof.
  unfold dispatch. destruct (http.url_Parse _ _); [by right|]. cbn.
  destruct (http.remote _ _); [by right | apply reply_shape].
Qed.

Lemma reply_failure resp :
  http.StatusCode resp ≠ 200 →
  reply resp = (nil_slice,
                Some (errors_New (status_text (http.StatusCode resp)))).
Proof.
  intros H. unfold reply. by destruct (Z.eqb_spec (http.StatusCode resp) 200).
Qed.

Lemma reply_decode_error resp r e :
  http.StatusCode resp = 200 →
  json.Decode (http.RespBody resp) zero_Response = (r, Some e) →
  reply resp = (nil_slice, Some e).
Proof. intros H200 H. unfold reply. by rewrite H200, H. Qed.

Lemma reply_decoded resp r :
  http.StatusCode resp = 200 →
  json.Decode (http.RespBody resp) zero_Response = (r, None) →
  reply resp = (Data r, None).
Proof. intros H200 H. unfold reply. by rewrite H200, H. Qed.

(** ** What is put on the wire *)

Lemma dispatch_sent c url ct body w0 w req :
  http.wire (net w) = http.wire (net w0) →
  http.wire (net (dispatch c url ct body w).1)
    = (http.wire (net w0) ++ [req])%list →
  req = request c url ct body ∧ http.url_Parse (net w) url = None.
Proof.
  intros Hwire Hsent. unfold dispatch in *.
  destruct (http.url_Parse (net w) url) as [err|]; cbn in *;
    rewrite Hwire in Hsent.
  - by apply not_extended in Hsent.
  - apply app_inv_head in Hsent. by injection Hsent as <-.
Qed.

Lemma Generate_sent c prompt size n user responseType w req :
  http.wire (net (Generate c prompt size n user responseType w).1)
    = (http.wire (net w) ++ [req])%list →
  req = request c (baseURL c +:+ "/generations") "application/json"
          (generate_body prompt n (sizeStr_of size) responseType user).
Proof.
  rewrite Generate_unfold. intros H. by apply dispatch_sent in H as [-> _].
Qed.

Lemma Edit_sent c prompt image mask size n user responseType w req :
  http.wire (net (Edit c prompt image mask size n user responseType w).1)
    = (http.wire (net w) ++ [req])%list →
  ∃ i m, image = Some i ∧ mask = Some m ∧
    (Edit c prompt image mask size n user responseType w).1
      = sent req (with_files (consumed m (consumed i (files w))) w) ∧
    req = request c (baseURL c +:+ "/edits") (contentType (rand w))
            (edit_form (rand w) prompt (files w i) (consumed i (files w) m)
               (nStr_of n) (sizeStr_of size) user responseType).
Proof.
  destruct image as [i|]; [destruct mask as [m|]|].
  - rewrite Edit_unfold. cbn zeta.
    destruct (read_error (files w i)) as [e1|].
    { intros H. cbn in H. by apply not_extended in H. }
    destruct (read_error (consumed i (files w) m)) as [e2|].
    { intros H. cbn in H. by apply not_extended in H. }
    intros H. apply dispatch_sent in H as [-> Hurl]; [|done].
    exists i, m. repeat split; try done.
    unfold dispatch. by rewrite Hurl.
  - rewrite Edit_nil_mask. intros H. by apply not_extended in H.
  - rewrite Edit_nil_image. intros H. by apply not_extended in H.
Qed.

Lemma Variation_sent c image size n user responseType w req :
  http.wire (net (Variation c image size n user responseType w).1)
    = (http.wire (net w) ++ [req])%list →
  ∃ i, image = Some i ∧
    req = request c (baseURL c +:+ "/variations") (contentType (rand w))
            (variation_form (rand w) (files w i)
               (nStr_of n) (sizeStr_of size) user responseType).
Proof.
  destruct image as [i|].
  - rewrite Variation_unfold. cbn zeta.
    destruct (read_error (files w i)) as [e1|].
    { intros H. cbn in H. by apply not_extended in H. }
    intros H. apply dispatch_sent in H as [-> _]; [|done]. by exists i.
  - rewrite Variation_nil_image. intros H. by apply not_extended in H.
Qed.

Lemma Body_request c url ct body : http.Body (request c url ct body) = body.
Proof. reflexivity. Qed.

(** ** The claims *)

(** C1.  The claim is that a size of 256, 512 or 1024 goes into the body
    as the text "{size}x{size}".  The operations do not do that: they hand
    the pointer [size], not the integer it points to, to [Sprintf], so the
    size field is "{address}x{address}".  Whatever the integer, as long as
    its address is not the same number, the size field of [Generate],
    [Edit] and [Variation] is the text made of the address and differs from
    the text the claim expects. *)
Theorem size_field_is_made_of_the_address
    c prompt image mask (p : int_ptr) n user responseType w req :
  Z.of_N (address p) ≠ pointee p →
  let s := pretty (address p) +:+ "x" +:+ pretty (address p) in
  let put (out : World * result) :=
    http.wire (net out.1) = (http.wire (net w) ++ [req])%list in
  s ≠ pretty (pointee p) +:+ "x" +:+ pretty (pointee p) ∧
  (put (Generate c prompt (Some p) n user responseType w) →
     http.Body req = generate_body prompt n (Some s) responseType user) ∧
  (put (Edit c prompt image mask (Some p) n user responseType w) →
     ∃ img msk, http.Body req =
       edit_form (rand w) prompt img msk (nStr_of n) (Some s)
         user responseType) ∧
  (put (Variation c image (Some p) n user responseType w) →
     ∃ img, http.Body req =
       variation_form (rand w) img (nStr_of n) (Some s) user responseType).
Proof.
  intros Hne s put. repeat split.
  - by apply Sprintf_dxd_pointer.
  - intros H. by apply Generate_sent in H as ->.
  - intros H. apply Edit_sent in H as (i & m & _ & _ & _ & ->). eauto.
  - intros H. apply Variation_sent in H as (i & _ & ->). eauto.
Qed.

(** C2.  The claim is that the [n] field of the form is the decimal text of
    the count.  [Edit] and [Variation] hand the pointer [n] to [Sprintf], so
    the field is the decimal text of the address of the count, which is a
    different text as long as the address is not the same number as the
    count. *)
Theorem n_field_is_made_of_the_address
    c prompt image mask size (p : int_ptr) user responseType w req :
  Z.of_N (address p) ≠ pointee p →
  let s := pretty (address p) in
  let put (out : World * result) :=
    http.wire (net out.1) = (http.wire (net w) ++ [req])%list in
  s ≠ pretty (pointee p) ∧
  (put (Edit c prompt image mask size (Some p) user responseType w) →
     ∃ img msk, http.Body req =
       edit_form (rand w) prompt img msk (Some s) (sizeStr_of size)
         user responseType) ∧
  (put (Variation c image size (Some p) user responseType w) →
     ∃ img, http.Body req =
       variation_form (rand w) img (Some s) (sizeStr_of size)
         user responseType).
Proof.
  intros Hne s put. repeat split.
  - by apply Sprintf_d_pointer.
  - intros H. apply Edit_sent in H as (i & m & _ & _ & _ & ->). eauto.
  - intros H. apply Variation_sent in H as (i & _ & ->). eauto.
Qed.

(** C3.  [Edit] with a nil image or with a nil mask, and [Variation] with a
    nil image, return an error made on the spot and leave the world as it
    was: no request is put on the wire (and no file is read). *)
Theorem nil_payload_is_refused_locally
    c prompt (mask : option loc) size n user responseType w :
  Edit c prompt None mask size n user responseType w
    = (w, (nil_slice, Some (errors_New "image is nil"))) ∧
  (∀ i, Edit c prompt (Some i) None size n user responseType w
    = (w, (nil_slice, Some (errors_New "mask is nil")))) ∧
  Variation c None size n user responseType w
    = (w, (nil_slice, Some (errors_New "image is nil"))).
Proof. repeat split. Qed.

(** C4.  In each of the three operations a response whose status is not 200
    gives no results and the error whose text [status_text] gives for the
    status, whatever the body of the response (so 200 is the only status
    that succeeds, and the body plays no part).  The nine listed statuses
    have nine different texts, different also from the text of an unlisted
    status, which is always "unknown error". *)
Theorem status_decides_the_error c w :
  NoDup ("unknown error" :: (status_text <$> listed)) ∧
  (∀ code, code ∉ listed → status_text code = "unknown error") ∧
  ∀ req resp,
    http.StatusCode resp ≠ 200 →
    let failed (out : World * result) :=
      exchanged w out req resp →
      out.2 = (nil_slice,
               Some (errors_New (status_text (http.StatusCode resp)))) in
    (∀ prompt size n user responseType,
       failed (Generate c prompt size n user responseType w)) ∧
    (∀ prompt image mask size n user responseType,
       failed (Edit c prompt image mask size n user responseType w)) ∧
    (∀ image size n user responseType,
       failed (Variation c image size n user responseType w)).
Proof.
  split; [|split; [|intros req resp Hcode failed; repeat split]].
  - apply (bool_decide_unpack _). by vm_compute.
  - intros code Hnot. unfold status_text.
    repeat match goal with
    | |- context [code =? ?k] =>
        destruct (Z.eqb_spec code k) as [Heq|_];
        [exfalso; apply Hnot; rewrite Heq; unfold listed;
         apply list_elem_of_In; cbn; tauto|]
    end.
    reflexivity.
  - intros * H. apply Generate_exchanged in H as [_ ->].
    by apply reply_failure.
  - intros * H. apply Edit_exchanged in H as [-> _]. by apply reply_failure.
  - intros * H. apply Variation_exchanged in H as [-> _].
    by apply reply_failure.
Qed.

(** C5, as it stands, fails.  The decoder reads one JSON value off the head
    of the body and does not look at what follows.  A body made of an
    envelope and a stray closing bracket is not valid JSON, and yet each
    operation returns the result sequence of the envelope and no error. *)
Lemma invalid_body_is_accepted :
  let body := js "{'created':1,'data':[{'url':'u'}]}]" in
  let c := NewClient "key" in
  json.Valid body = false ∧
  (Generate c "a horse" None None None None (stub 200 body)).2
    = (Slice [{| URL := "u" |}] 1, None) ∧
  (Edit c "a horse" (Some 1%N) (Some 2%N) None None None None
     (stub 200 body)).2
    = (Slice [{| URL := "u" |}] 1, None) ∧
  (Variation c (Some 1%N) None None None None (stub 200 body)).2
    = (Slice [{| URL := "u" |}] 1, None).
Proof. repeat split; by vm_compute. Qed.

(** C5, amended.  When the decoder reports an error on the body of a 200
    response (the body does not start with a well-formed JSON value, or the
    value cannot be stored in the envelope), each operation returns that
    error and no results; the error is one of the decoder's and is none of
    the errors made for a status. *)
Theorem decode_error_is_returned c w req resp r e :
  http.StatusCode resp = 200 →
  json.Decode (http.RespBody resp) zero_Response = (r, Some e) →
  let failed (out : World * result) :=
    exchanged w out req resp → out.2 = (nil_slice, Some e) in
  decode_error e ∧
  (∀ code, e ≠ errors_New (status_text code)) ∧
  (∀ prompt size n user responseType,
     failed (Generate c prompt size n user responseType w)) ∧
  (∀ prompt image mask size n user responseType,
     failed (Edit c prompt image mask size n user responseType w)) ∧
  (∀ image size n user responseType,
     failed (Variation c image size n user responseType w)).
Proof.
  intros H200 Hdec failed.
  assert (decode_error e) as He by (by eapply Decode_error).
  split; [done|]. split; [|repeat split].
  - intros code. by apply decode_error_not_status.
  - intros * H. apply Generate_exchanged in H as [_ ->].
    by eapply reply_decode_error.
  - intros * H. apply Edit_exchanged in H as [-> _].
    by eapply reply_decode_error.
  - intros * H. apply Variation_exchanged in H as [-> _].
    by eapply reply_decode_error.
Qed.

(** C6.  The body [Generate] sends is valid JSON and denotes an object
    with the prompt first and then one member for each of [n], [size],
    [response_format] and [user] that is not nil, and none for one that is.
    The member for [n] is a JSON number, the count in decimal; as text, it
    is the digits with no quotes around them. *)
Theorem Generate_body_members c prompt size n user responseType w req :
  http.wire (net (Generate c prompt size n user responseType w).1)
    = (http.wire (net w) ++ [req])%list →
  json.Valid (http.Body req) = true ∧
  json.readValue (http.Body req) =
    inr (json.JObject
           (("prompt", text_value prompt)
            :: optional_entry "n" (number_value <$> n)
            ++ optional_entry "size" (text_value <$> sizeStr_of size)
            ++ optional_entry "response_format" (text_value <$> responseType)
            ++ optional_entry "user" (text_value <$> user))) ∧
  http.Body req =
    "{" +:+ member "prompt" (json.appendString prompt)
    +:+ optional_member "n" (pretty ∘ pointee <$> n)
    +:+ optional_member "size" (json.appendString <$> sizeStr_of size)
    +:+ optional_member "response_format" (json.appendString <$> responseType)
    +:+ optional_member "user" (json.appendString <$> user)
    +:+ "}".
Proof.
  intros H. apply Generate_sent in H as ->. rewrite Body_request.
  destruct (generate_body_is_an_object prompt n (sizeStr_of size)
              responseType user) as [Hvalid Hread].
  split; [done|]. split.
  - rewrite Hread. do 2 f_equal.
    unfold json.GenerateRequest_fields.
    by destruct n, (sizeStr_of size), user, responseType.
  - unfold generate_body, json.Marshal, json.GenerateRequest_fields,
      optional_member, member.
    destruct n as [pn|], (sizeStr_of size) as [s|], user as [u|],
      responseType as [rt|]; cbn; unfold json.encode_fields; cbn;
      rewrite ?append_nil_l, ?append_nil_r, ?append_assoc; reflexivity.
Qed.

(** C7.  Whatever the inputs and the world, none of the three operations
    returns both a non-nil slice and a non-nil error. *)
Theorem results_or_error_never_both
    c prompt image mask size n user responseType w :
  let one_of (out : World * result) :=
    out.2.2 = None ∨ out.2.1 = nil_slice in
  one_of (Generate c prompt size n user responseType w) ∧
  one_of (Edit c prompt image mask size n user responseType w) ∧
  one_of (Variation c image size n user responseType w).
Proof.
  intros one_of. unfold one_of. repeat split.
  - rewrite Generate_unfold. apply dispatch_shape.
  - destruct image as [i|]; [destruct mask as [m|]|]; [|by right..].
    rewrite Edit_unfold. cbn zeta.
    destruct (read_error _); [by right|].
    destruct (read_error _); [by right|]. apply dispatch_shape.
  - destruct image as [i|]; [|by right].
    rewrite Variation_unfold. cbn zeta.
    destruct (read_error _); [by right|]. apply dispatch_shape.
Qed.

(** C8.  [Generate] has no check on the prompt.  For every prompt, the
    empty one included, the request is built and put on the wire, provided
    the URL parses; the results are what the exchange gives. *)
Theorem Generate_sends_every_prompt c prompt size n user responseType w :
  http.url_Parse (net w) (baseURL c +:+ "/generations") = None →
  let out := Generate c prompt size n user responseType w in
  let req :=
    request c (baseURL c +:+ "/generations") "application/json"
      (generate_body prompt n (sizeStr_of size) responseType user) in
  http.wire (net out.1) = (http.wire (net w) ++ [req])%list ∧
  http.Method req = "POST" ∧
  http.URL req = baseURL c +:+ "/generations" ∧
  out.2 = answer (baseURL c +:+ "/generations") (http.remote (net w) req).
Proof.
  intros Hurl out req. unfold out. rewrite Generate_unfold.
  unfold dispatch. rewrite Hurl. done.
Qed.




(** C10, as it stands, fails.  A body can be valid JSON and hold an envelope
    with an empty [data] array and still be refused: when its [created] is
    not an integer, the decoder reports a type error, and each operation
    returns that error, not a nil one. *)
Lemma empty_data_with_a_text_for_created :
  let body := js "{'created':'now','data':[]}" in
  let c := NewClient "key" in
  let refused := (nil_slice, Some (json_UnmarshalTypeError "string")) in
  json.Valid body = true ∧
  json.readValue body
    = inr (json.JObject
             [("created", json.JString "now"); ("data", json.JArray [])]) ∧
  (Generate c "a horse" None None None None (stub 200 body)).2 = refused ∧
  (Edit c "a horse" (Some 1%N) (Some 2%N) None None None None
     (stub 200 body)).2 = refused ∧
  (Variation c (Some 1%N) None None None None (stub 200 body)).2 = refused.
Proof. repeat split; by vm_compute. Qed.

(** C10, amended.  When the body of a 200 response starts with a JSON object
    that, read as an envelope, has no element and nothing that does not fit
    (it has no [data] member, or its [data] is an empty array or null; its
    [created], if any, is an integer of 64 bits or null) each operation
    returns a slice without elements and a nil error: the nil slice when
    there is no [data] member. *)
Theorem empty_data_is_returned_without_error c w req resp ms :
  http.StatusCode resp = 200 →
  json.readValue (http.RespBody resp) = inr (json.JObject ms) →
  Forall brings_nothing ms →
  ∃ d : slice Datum,
    elems d = [] ∧
    (Forall (λ m, names_data m = false) ms → d = nil_slice) ∧
    let returned (out : World * result) :=
      exchanged w out req resp → out.2 = (d, None) in
    (∀ prompt size n user responseType,
       returned (Generate c prompt size n user responseType w)) ∧
    (∀ prompt image mask size n user responseType,
       returned (Edit c prompt image mask size n user responseType w)) ∧
    (∀ image size n user responseType,
       returned (Variation c image size n user responseType w)).
Proof.
  intros H200 Hread Hms.
  destruct (Decode_nothing _ _ Hread Hms) as (r & Hdec & Hempty & Hnil).
  assert (reply resp = (Data r, None)) as Hreply
    by (by apply reply_decoded).
  exists (Data r). split; [done|]. split; [done|]. repeat split.
  - intros * H. by apply Generate_exchanged in H as [_ ->].
  - intros * H. by apply Edit_exchanged in H as [-> _].
  - intros * H. by apply Variation_exchanged in H as [-> _].
Qed.


(** ** The theorems at sample inputs *)

(** At a pointer to 512 the size field is the address, twice. *)
Lemma size_field_at_512 :
  let c := NewClient "key" in
  let w := stub 200 one_image in
  let req :=
    request c "https://api.openai.com/v1/images/generations"
      "application/json"
      (js "{'prompt':'a horse','size':'824633794848x824633794848'}") in
  http.wire (net (Generate c "a horse" (Some size512) None None None w).1)
    = [req] ∧
  "824633794848x824633794848" ≠ "512x512" ∧
  http.Body req
    = generate_body "a horse" None (Some "824633794848x824633794848")
        None None.
Proof.
  intros c w req.
  assert (Z.of_N (address size512) ≠ pointee size512) as Hne
    by (vm_compute; discriminate).
  assert (http.wire
            (net (Generate c "a horse" (Some size512) None None None w).1)
          = (http.wire (net w) ++ [req])%list) as Hput
    by (vm_compute; reflexivity).
  destruct (size_field_is_made_of_the_address c "a horse" None None size512
              None None None w req Hne) as (Hs & HG & _).
  split; [exact Hput|]. split; [exact Hs|]. exact (HG Hput).
Defined.

(** At a pointer to 3 the [n] field is the address. *)
Lemma n_field_at_3 :
  let c := NewClient "key" in
  let w := stub 200 one_image in
  let body :=
    edit_form sample_boundary "a horse" (sample_files 1%N) (sample_files 2%N)
      (Some "824633794856") None None None in
  let req :=
    request c "https://api.openai.com/v1/images/edits"
      (contentType sample_boundary) body in
  http.wire
    (net (Edit c "a horse" (Some 1%N) (Some 2%N) None (Some count3)
            None None w).1) = [req] ∧
  "824633794856" ≠ "3" ∧
  ∃ img msk, body =
    edit_form sample_boundary "a horse" img msk (Some "824633794856") None
      None None.
Proof.
  intros c w body req.
  assert (Z.of_N (address count3) ≠ pointee count3) as Hne
    by (vm_compute; discriminate).
  assert (http.wire
            (net (Edit c "a horse" (Some 1%N) (Some 2%N) None (Some count3)
                    None None w).1)
          = (http.wire (net w) ++ [req])%list) as Hput
    by (vm_compute; reflexivity).
  destruct (n_field_is_made_of_the_address c "a horse" (Some 1%N) (Some 2%N)
              None count3 None None w req Hne) as (Hs & HE & _).
  split; [exact Hput|]. split; [exact Hs|]. exact (HE Hput).
Defined.

(** The status 404 in each operation. *)
Lemma not_found_at_404 :
  let c := NewClient "key" in
  let w := stub 404 one_image in
  (Generate c "a horse" None None None None w).2
    = (nil_slice, Some (errors_New "not found")) ∧
  (Edit c "a horse" (Some 1%N) (Some 2%N) None None None None w).2
    = (nil_slice, Some (errors_New "not found")) ∧
  (Variation c (Some 1%N) None None None None w).2
    = (nil_slice, Some (errors_New "not found")).
Proof.
  intros c w.
  set (resp := {| http.StatusCode := 404; http.RespBody := one_image |}).
  assert (http.StatusCode resp ≠ 200) as Hcode by (vm_compute; discriminate).
  split; [|split].
  - set (req := request c "https://api.openai.com/v1/images/generations"
                  "application/json" (js "{'prompt':'a horse'}")).
    destruct (status_decides_the_error c w) as (_ & _ & H).
    destruct (H req resp Hcode) as (HG & _ & _).
    apply HG. split; vm_compute; reflexivity.
  - set (req := request c "https://api.openai.com/v1/images/edits"
                  (contentType sample_boundary)
                  (edit_form sample_boundary "a horse" (sample_files 1%N)
                     (sample_files 2%N) None None None None)).
    destruct (status_decides_the_error c w) as (_ & _ & H).
    destruct (H req resp Hcode) as (_ & HE & _).
    apply HE. split; vm_compute; reflexivity.
  - set (req := request c "https://api.openai.com/v1/images/variations"
                  (contentType sample_boundary)
                  (variation_form sample_boundary (sample_files 1%N)
                     None None None None)).
    destruct (status_decides_the_error c w) as (_ & _ & H).
    destruct (H req resp Hcode) as (_ & _ & HV).
    apply HV. split; vm_compute; reflexivity.
Defined.

(** A body that is no JSON at all. *)
Lemma syntax_error_at_html :
  let c := NewClient "key" in
  let w := stub 200 "<html>" in
  (Generate c "a horse" None None None None w).2
    = (nil_slice, Some json_SyntaxError) ∧
  json_SyntaxError ≠ errors_New (status_text 404).
Proof.
  intros c w.
  set (resp := {| http.StatusCode := 200; http.RespBody := "<html>" |}).
  set (req := request c "https://api.openai.com/v1/images/generations"
                "application/json" (js "{'prompt':'a horse'}")).
  assert (http.StatusCode resp = 200) as H200 by reflexivity.
  assert (json.Decode (http.RespBody resp) zero_Response
          = (zero_Response, Some json_SyntaxError)) as Hdec
    by (vm_compute; reflexivity).
  destruct (decode_error_is_returned c w req resp _ _ H200 Hdec)
    as (_ & Hstatus & HG & _ & _).
  split; [|apply Hstatus].
  apply HG. split; vm_compute; reflexivity.
Defined.

(** At a count of 3 the member [n] is the number 3. *)
Lemma body_with_count_3 :
  let c := NewClient "key" in
  let w := stub 200 one_image in
  let req :=
    request c "https://api.openai.com/v1/images/generations"
      "application/json" (js "{'prompt':'a horse','n':3}") in
  json.readValue (http.Body req) =
    inr (json.JObject
           [("prompt", json.JString "a horse"); ("n", json.JNumber "3")]).
Proof.
  intros c w req.
  destruct (Generate_body_members c "a horse" None (Some count3) None None
              w req) as (_ & Hread & _); [vm_compute; reflexivity|].
  exact Hread.
Defined.

(** The empty prompt is sent like any other. *)
Lemma empty_prompt_is_sent :
  let c := NewClient "key" in
  let w := stub 200 one_image in
  let req :=
    request c "https://api.openai.com/v1/images/generations"
      "application/json" (js "{'prompt':''}") in
  http.wire (net (Generate c EmptyString None None None None w).1) = [req] ∧
  (Generate c EmptyString None None None None w).2
    = (Slice [{| URL := "u" |}] 1, None).
Proof.
  intros c w req.
  assert (http.url_Parse (net w) (baseURL c +:+ "/generations") = None)
    as Hurl by reflexivity.
  destruct (Generate_sends_every_prompt c EmptyString None None None None w
              Hurl) as (Hput & _ & _ & Hout).
  split; [exact Hput | exact Hout].
Defined.


(** An envelope without [data] and one with an empty [data]. *)
Lemma no_data_and_empty_data :
  let c := NewClient "key" in
  (Generate c "a horse" None None None None
     (stub 200 (js "{'created':1}"))).2 = (nil_slice, None) ∧
  ∃ d, elems d = [] ∧
    (Generate c "a horse" None None None None
       (stub 200 (js "{'created':1,'data':[]}"))).2 = (d, None).
Proof.
  intros c.
  set (req := request c "https://api.openai.com/v1/images/generations"
                "application/json" (js "{'prompt':'a horse'}")).
  split.
  - set (resp := {| http.StatusCode := 200;
                    http.RespBody := js "{'created':1}" |}).
    destruct (empty_data_is_returned_without_error c
                (stub 200 (js "{'created':1}")) req resp
                [("created", json.JNumber "1")])
      as (d & _ & Hnil & HG & _).
    + reflexivity.
    + vm_compute; reflexivity.
    + constructor; [|constructor].
      right. exists "1". split; [reflexivity|]. vm_compute. eauto.
    + rewrite <- Hnil by (constructor; [reflexivity | constructor]).
      apply HG. split; vm_compute; reflexivity.
  - set (resp := {| http.StatusCode := 200;
                    http.RespBody := js "{'created':1,'data':[]}" |}).
    destruct (empty_data_is_returned_without_error c
                (stub 200 (js "{'created':1,'data':[]}")) req resp
                [("created", json.JNumber "1"); ("data", json.JArray [])])
      as (d & Hd & _ & HG & _).
    + reflexivity.
    + vm_compute; reflexivity.
    + constructor; [|constructor; [|constructor]].
      * right. exists "1". split; [reflexivity|]. vm_compute. eauto.
      * right. reflexivity.
    + exists d. split; [done|].
      apply HG. split; vm_compute; reflexivity.
Defined.

(** A read error while the image is copied is returned as it comes, and
    nothing is put on the wire. *)
Example read_error_is_returned :
  let out := Edit (NewClient "key") "a horse" (Some 1%N) (Some 2%N)
               None None None None (faulty_image (stub 200 one_image)) in
  out.2 = (nil_slice,
           Some (fs_PathError "read" "otter.png" (syscall_Errno 5))) ∧
  http.wire (net out.1) = [].
Proof. split; reflexivity. Qed.

(** One file object given as image and as mask is read to its end for the
    image part; the mask part has a header and no content. *)
Example one_file_for_image_and_mask :
  let w := stub 200 one_image in
  let out := Edit (NewClient "key") "a horse" (Some 1%N) (Some 1%N)
               None None None None w in
  ∃ req,
    http.wire (net out.1) = [req] ∧
    http.Body req =
      file_part sample_boundary true "image" (sample_files 1%N)
      +:+ multipart.part_head sample_boundary true
            (multipart.file_header "mask" "otter.png")
      +:+ field_part sample_boundary "prompt" "a horse"
      +:+ multipart.trailer sample_boundary.
Proof. eexists. split; vm_compute; reflexivity. Qed.


(** * Further properties *)

(** ** The requests *)

Lemma request_headers c url ct body :
  http.Method (request c url ct body) = "POST" ∧
  http.URL (request c url ct body) = url ∧
  http.Header (request c url ct body) !! "Authorization"
    = Some ["Bearer " +:+ apiKey c] ∧
  http.Header (request c url ct body) !! "User-Agent" = Some [userAgent c] ∧
  http.Header (request c url ct body) !! "Content-Type" = Some [ct] ∧
  (∀ key, key ≠ "Authorization" → key ≠ "User-Agent" →
          key ≠ "Content-Type" →
          http.Header (request c url ct body) !! key = None).
Proof.
  unfold request, http.Header_Set. cbn [http.Method http.URL http.Header].
  split_and!; try reflexivity.
  intros key H1 H2 H3.
  by rewrite !lookup_insert_ne, lookup_empty.
Qed.

(** X1.  The request an operation hands to the HTTP client is a POST whose
    header holds three keys, the ones the operation sets, and no other:
    Authorization, with the key of the client as a bearer token,
    User-Agent, with the user agent of the client, and Content-Type, which
    for [Generate] is application/json.  ([http.wire] lists the requests as
    they are handed to [Do]; what the transport adds of its own when it
    writes a request out, such as Host or Content-Length, is not part of
    them.) *)
Theorem requests_carry_key_and_agent
    c prompt image mask size n user responseType w req :
  let put (out : World * result) :=
    http.wire (net out.1) = (http.wire (net w) ++ [req])%list in
  put (Generate c prompt size n user responseType w) ∨
  put (Edit c prompt image mask size n user responseType w) ∨
  put (Variation c image size n user responseType w) →
  http.Method req = "POST" ∧
  http.Header req !! "Authorization" = Some ["Bearer " +:+ apiKey c] ∧
  http.Header req !! "User-Agent" = Some [userAgent c] ∧
  is_Some (http.Header req !! "Content-Type") ∧
  (put (Generate c prompt size n user responseType w) →
   http.Header req !! "Content-Type" = Some ["application/json"]) ∧
  (∀ key, key ≠ "Authorization" → key ≠ "User-Agent" →
          key ≠ "Content-Type" → http.Header req !! key = None).
Proof.
  intros put H.
  assert (∃ url ct body, req = request c url ct body) as (url & ct & body & ->).
  { destruct H as [H|[H|H]].
    - apply Generate_sent in H as ->. by eexists _, _, _.
    - apply Edit_sent in H as (i & m & _ & _ & _ & ->). by eexists _, _, _.
    - apply Variation_sent in H as (i & _ & ->). by eexists _, _, _. }
  destruct (request_headers c url ct body) as (? & ? & ? & ? & Hct & ?).
  split_and!; try done.
  intros HG. apply Generate_sent in HG. by rewrite HG.
Qed.

(** ** How a call ends *)

Lemma reply_success resp :
  (reply resp).2 = None →
  http.StatusCode resp = 200 ∧
  ∃ r, json.Decode (http.RespBody resp) zero_Response = (r, None) ∧
       (reply resp).1 = Data r.
Proof.
  unfold reply. destruct (Z.eqb_spec (http.StatusCode resp) 200); [|done].
  destruct (json.Decode _ _) as [r [err|]]; [done|]. eauto.
Qed.

Lemma dispatch_success c url ct body w :
  (dispatch c url ct body w).2.2 = None →
  ∃ resp r,
    (dispatch c url ct body w).1 = sent (request c url ct body) w ∧
    http.remote (net w) (request c url ct body) = inr resp ∧
    http.StatusCode resp = 200 ∧
    json.Decode (http.RespBody resp) zero_Response = (r, None) ∧
    (dispatch c url ct body w).2.1 = Data r.
Proof.
  unfold dispatch. destruct (http.url_Parse _ _); [done|]. cbn.
  destruct (http.remote _ _) as [err|resp]; [done|]. cbn.
  intros H. apply reply_success in H as (H200 & r & Hdec & Hdata).
  by exists resp, r.
Qed.

Lemma dispatch_answered c url ct body w0 w req :
  http.wire (net w) = http.wire (net w0) →
  http.remote (net w) = http.remote (net w0) →
  http.wire (net (dispatch c url ct body w).1)
    = (http.wire (net w0) ++ [req])%list →
  (dispatch c url ct body w).2
    = answer (http.URL req) (http.remote (net w0) req).
Proof.
  intros Hwire Hremote Hsent.
  destruct (dispatch_sent _ _ _ _ _ _ _ Hwire Hsent) as [-> Hurl].
  unfold dispatch. rewrite Hurl, Hremote. reflexivity.
Qed.

Lemma Generate_answered c prompt size n user responseType w req :
  http.wire (net (Generate c prompt size n user responseType w).1)
    = (http.wire (net w) ++ [req])%list →
  (Generate c prompt size n user responseType w).2
    = answer (http.URL req) (http.remote (net w) req).
Proof. rewrite Generate_unfold. by apply dispatch_answered. Qed.

Lemma Edit_answered c prompt image mask size n user responseType w req :
  http.wire (net (Edit c prompt image mask size n user responseType w).1)
    = (http.wire (net w) ++ [req])%list →
  (Edit c prompt image mask size n user responseType w).2
    = answer (http.URL req) (http.remote (net w) req).
Proof.
  destruct image as [i|]; [destruct mask as [m|]|].
  - rewrite Edit_unfold. cbn zeta.
    destruct (read_error (files w i)) as [e1|].
    { intros H. cbn in H. by apply not_extended in H. }
    destruct (read_error (consumed i (files w) m)) as [e2|].
    { intros H. cbn in H. by apply not_extended in H. }
    by apply dispatch_answered.
  - rewrite Edit_nil_mask. intros H. by apply not_extended in H.
  - rewrite Edit_nil_image. intros H. by apply not_extended in H.
Qed.

Lemma Variation_answered c image size n user responseType w req :
  http.wire (net (Variation c image size n user responseType w).1)
    = (http.wire (net w) ++ [req])%list →
  (Variation c image size n user responseType w).2
    = answer (http.URL req) (http.remote (net w) req).
Proof.
  destruct image as [i|].
  - rewrite Variation_unfold. cbn zeta.
    destruct (read_error (files w i)) as [e1|].
    { intros H. cbn in H. by apply not_extended in H. }
    by apply dispatch_answered.
  - rewrite Variation_nil_image. intros H. by apply not_extended in H.
Qed.

Lemma dispatch_stopped_or_sent c url ct body w0 w :
  net w = net w0 →
  stopped_or_sent w0 (dispatch c url ct body w).
Proof.
  intros Hnet. unfold stopped_or_sent, dispatch.
  destruct (http.url_Parse (net w) url) as [err|]; cbn.
  - left. by eauto.
  - right. exists (request c url ct body). by rewrite Hnet.
Qed.

Lemma Generate_stopped_or_sent c prompt size n user responseType w :
  stopped_or_sent w (Generate c prompt size n user responseType w).
Proof. rewrite Generate_unfold. by apply dispatch_stopped_or_sent. Qed.

Lemma Edit_stopped_or_sent c prompt image mask size n user responseType w :
  stopped_or_sent w (Edit c prompt image mask size n user responseType w).
Proof.
  destruct image as [i|]; [destruct mask as [m|]|].
  - rewrite Edit_unfold. cbn zeta.
    destruct (read_error (files w i)) as [e1|]; [left; by eauto|].
    destruct (read_error (consumed i (files w) m)) as [e2|];
      [left; by eauto|].
    by apply dispatch_stopped_or_sent.
  - left. by eauto.
  - left. by eauto.
Qed.

Lemma Variation_stopped_or_sent c image size n user responseType w :
  stopped_or_sent w (Variation c image size n user responseType w).
Proof.
  destruct image as [i|].
  - rewrite Variation_unfold. cbn zeta.
    destruct (read_error (files w i)) as [e1|]; [left; by eauto|].
    by apply dispatch_stopped_or_sent.
  - left. by eauto.
Qed.

(** X2.  An error of the exchange (the service cannot be reached, the
    client times out) comes back from each operation wrapped in a
    [url.Error] that names the method and the URL of the request; no
    results come with it. *)
Theorem transport_error_is_wrapped c w req cause :
  http.remote (net w) req = inl cause →
  let failed (out : World * result) :=
    http.wire (net out.1) = (http.wire (net w) ++ [req])%list →
    out.2 = (nil_slice, Some (url_Error "Post" (http.URL req) cause)) in
  (∀ prompt size n user responseType,
     failed (Generate c prompt size n user responseType w)) ∧
  (∀ prompt image mask size n user responseType,
     failed (Edit c prompt image mask size n user responseType w)) ∧
  (∀ image size n user responseType,
     failed (Variation c image size n user responseType w)).
Proof.
  intros Hfail failed. unfold failed. split_and!; intros * Hput.
  - rewrite (Generate_answered _ _ _ _ _ _ _ _ Hput), Hfail. reflexivity.
  - rewrite (Edit_answered _ _ _ _ _ _ _ _ _ _ Hput), Hfail. reflexivity.
  - rewrite (Variation_answered _ _ _ _ _ _ _ _ Hput), Hfail. reflexivity.
Qed.

(** X3.  A nil error is returned only for a request that went out and was
    answered with the status 200 and a body the decoder accepted; the
    results are then the [data] of what was decoded. *)
Theorem nil_error_means_a_decoded_200
    c prompt image mask size n user responseType w :
  let served (out : World * result) :=
    out.2.2 = None →
    ∃ req resp r,
      exchanged w out req resp ∧
      http.StatusCode resp = 200 ∧
      json.Decode (http.RespBody resp) zero_Response = (r, None) ∧
      out.2.1 = Data r in
  served (Generate c prompt size n user responseType w) ∧
  served (Edit c prompt image mask size n user responseType w) ∧
  served (Variation c image size n user responseType w).
Proof.
  intros served. unfold served, exchanged. split_and!.
  - rewrite Generate_unfold. intros H.
    apply dispatch_success in H as (resp & r & -> & Hr & H200 & Hdec & ->).
    by eexists _, resp, r.
  - destruct image as [i|]; [destruct mask as [m|]|]; [|done..].
    rewrite Edit_unfold. cbn zeta.
    destruct (read_error _); [done|]. destruct (read_error _); [done|].
    intros H.
    apply dispatch_success in H as (resp & r & -> & Hr & H200 & Hdec & ->).
    by eexists _, resp, r.
  - destruct image as [i|]; [|done].
    rewrite Variation_unfold. cbn zeta.
    destruct (read_error _); [done|].
    intros H.
    apply dispatch_success in H as (resp & r & -> & Hr & H200 & Hdec & ->).
    by eexists _, resp, r.
Qed.

(** X4.  A call sends at most one request: either it stops before the
    request is sent, and then it returns an error, no results, and leaves
    the network as it was; or it adds one request to those sent before
    and returns what the exchange of that request gives.  There is no
    second attempt, whatever the first one ends in. *)
Theorem at_most_one_request c prompt image mask size n user responseType w :
  stopped_or_sent w (Generate c prompt size n user responseType w) ∧
  stopped_or_sent w (Edit c prompt image mask size n user responseType w) ∧
  stopped_or_sent w (Variation c image size n user responseType w).
Proof.
  split_and!.
  - apply Generate_stopped_or_sent.
  - apply Edit_stopped_or_sent.
  - apply Variation_stopped_or_sent.
Qed.

(** ** The files *)

Lemma consumed_eq l fs : consumed l fs l = drained (fs l).
Proof. unfold consumed, os.FS. by rewrite fn_lookup_insert. Qed.

Lemma consumed_ne l l' fs : l ≠ l' → consumed l fs l' = fs l'.
Proof. intros H. unfold consumed, os.FS. by rewrite fn_lookup_insert_ne. Qed.

Lemma consumed_read_only l fs l' : read_only (fs l') (consumed l fs l').
Proof.
  destruct (decide (l = l')) as [->|Hne].
  - right. apply consumed_eq.
  - left. by apply consumed_ne.
Qed.

Lemma read_only_trans f g h : read_only f g → read_only g h → read_only f h.
Proof.
  intros [->| ->] [->| ->]; [by left | by right | by right | by right].
Qed.

Lemma dispatch_files c url ct body w :
  files (dispatch c url ct body w).1 = files w.
Proof. unfold dispatch. by destruct (http.url_Parse _ _). Qed.

Lemma Edit_files c prompt i m size n user responseType w :
  let out := Edit c prompt (Some i) (Some m) size n user responseType w in
  files out.1 = consumed i (files w) ∨
  files out.1 = consumed m (consumed i (files w)).
Proof.
  cbn zeta. rewrite Edit_unfold. cbn zeta.
  destruct (read_error _); [by left|].
  destruct (read_error _); [by right|].
  right. by rewrite dispatch_files.
Qed.

Lemma Variation_files c i size n user responseType w :
  files (Variation c (Some i) size n user responseType w).1
    = consumed i (files w).
Proof.
  rewrite Variation_unfold. cbn zeta.
  destruct (read_error _); [done|]. by rewrite dispatch_files.
Qed.

(** X5.  The operations only read the files they are given.  [Generate]
    touches no file.  After [Edit] or [Variation] every file object is as
    before or has been read to its end, with its name unchanged; a file
    object that is neither the image nor the mask is as before. *)
Theorem files_are_only_read c prompt image mask size n user responseType w l :
  files (Generate c prompt size n user responseType w).1 = files w ∧
  let only_read (given : list (option loc)) (out : World * result) :=
    read_only (files w l) (files out.1 l) ∧
    (Some l ∉ given → files out.1 l = files w l) in
  only_read [image; mask]
    (Edit c prompt image mask size n user responseType w) ∧
  only_read [image] (Variation c image size n user responseType w).
Proof.
  split; [|split].
  - rewrite Generate_unfold. apply dispatch_files.
  - destruct image as [i|]; [destruct mask as [m|]|];
      [|split; [by left | done]..].
    destruct (Edit_files c prompt i m size n user responseType w)
      as [-> | ->]; split.
    + apply consumed_read_only.
    + intros H. apply consumed_ne. set_solver.
    + eapply read_only_trans; apply consumed_read_only.
    + intros H. rewrite !consumed_ne; [done|set_solver..].
  - destruct image as [i|]; [|split; [by left | done]].
    rewrite Variation_files. split.
    + apply consumed_read_only.
    + intros H. apply consumed_ne. set_solver.
Qed.

(** X6.  A read error on a file ends the operation: the error is returned
    as a [PathError] for the read of the file by its name, nothing is sent,
    and a mask that is another file object than the failing image has not
    been touched.  When it is the mask that fails, the image has been read
    to its end before. *)
Theorem read_error_ends_the_operation
    c prompt f size n user responseType w cause :
  os.fault (files w f) = Some cause →
  let err := fs_PathError "read" (os.name (files w f)) cause in
  (∀ mask,
     let out :=
       Edit c prompt (Some f) (Some mask) size n user responseType w in
     out.2 = (nil_slice, Some err) ∧ net out.1 = net w ∧
     (mask ≠ f → files out.1 mask = files w mask)) ∧
  (∀ image,
     image ≠ f → os.fault (files w image) = None →
     let out :=
       Edit c prompt (Some image) (Some f) size n user responseType w in
     out.2 = (nil_slice, Some err) ∧ net out.1 = net w ∧
     files out.1 image = drained (files w image)) ∧
  (let out := Variation c (Some f) size n user responseType w in
   out.2 = (nil_slice, Some err) ∧ net out.1 = net w).
Proof.
  intros Hf err. split_and!.
  - intros mask. cbn zeta. rewrite Edit_unfold. cbn zeta.
    unfold read_error. rewrite Hf. cbn. split_and!; try done.
    intros Hne. by apply consumed_ne.
  - intros image Hne Hi. cbn zeta. rewrite Edit_unfold. cbn zeta.
    unfold read_error. rewrite Hi. cbn.
    rewrite (consumed_ne image f) by done. rewrite Hf. cbn.
    split_and!; try done.
    rewrite consumed_ne by done. apply consumed_eq.
  - cbn zeta. rewrite Variation_unfold. cbn zeta.
    unfold read_error. rewrite Hf. done.
Qed.

(** X7.  When [Variation], given an image, puts a request on the wire, it
    is a request for {baseURL}/variations with the Content-Type of the
    writer and a body that holds the image part with all the image
    delivers, the optional fields, and the closing line: no prompt and no
    mask.  The image has then been read to its end.  The request is put on
    the wire whenever the image is read without error and the URL
    parses. *)
Theorem Variation_sends_the_image_form c i size n user responseType w :
  let out := Variation c (Some i) size n user responseType w in
  let b := rand w in
  let img := files w i in
  (∀ req,
     http.wire (net out.1) = (http.wire (net w) ++ [req])%list →
     http.Method req = "POST" ∧
     http.URL req = baseURL c +:+ "/variations" ∧
     http.Header req !! "Content-Type"
       = Some [multipart.FormDataContentType (multipart.NewWriter b)] ∧
     http.Body req =
       file_part b true "image" img
       +:+ options b (nStr_of n) (sizeStr_of size) user responseType
       +:+ multipart.trailer b) ∧
  files out.1 i = drained img ∧
  (os.fault img = None →
   http.url_Parse (net w) (baseURL c +:+ "/variations") = None →
   ∃ req, http.wire (net out.1) = (http.wire (net w) ++ [req])%list).
Proof.
  intros out b img. split; [|split].
  - intros req H. unfold out in *.
    apply Variation_sent in H as (i' & [= <-] & ->).
    split_and!; reflexivity.
  - unfold out. rewrite Variation_files. apply consumed_eq.
  - intros Hi Hurl. unfold out. rewrite Variation_unfold. cbn zeta.
    unfold read_error. fold img. rewrite Hi. cbn.
    unfold dispatch. cbn. rewrite Hurl. cbn. eauto.
Qed.

(** X8.  The operations do not rewind the files.  When [Edit] has sent a
    request for an image and a mask, a second [Edit] for the same two file
    objects, whatever boundary its writer draws, sends a request as well,
    in which the parts of the image and of the mask have their headers and
    no content. *)
Theorem second_Edit_sends_empty_files
    c prompt i m size n user responseType
    prompt' size' n' user' responseType' b' w req :
  let out := Edit c prompt (Some i) (Some m) size n user responseType w in
  http.wire (net out.1) = (http.wire (net w) ++ [req])%list →
  let out' :=
    Edit c prompt' (Some i) (Some m) size' n' user' responseType'
      (with_boundary b' out.1) in
  ∃ req',
    http.wire (net out'.1) = (http.wire (net w) ++ [req; req'])%list ∧
    http.Body req' =
      multipart.part_head b' false
        (multipart.file_header "image" (os.name (files w i)))
      +:+ multipart.part_head b' true
            (multipart.file_header "mask" (os.name (files w m)))
      +:+ field_part b' "prompt" prompt'
      +:+ options b' (nStr_of n') (sizeStr_of size') user' responseType'
      +:+ multipart.trailer b'.
Proof.
  intros out Hput out'.
  assert (os.fault (files w i) = None ∧
          os.fault (consumed i (files w) m) = None ∧
          http.url_Parse (net w) (baseURL c +:+ "/edits") = None ∧
          out.1 = sent req (with_files (consumed m (consumed i (files w))) w))
    as (Hi & Hm & Hurl & Hout).
  { unfold out in *. revert Hput. rewrite Edit_unfold. cbn zeta.
    unfold read_error.
    destruct (os.fault (files w i)) as [e1|]; cbn.
    { intros H. by apply not_extended in H. }
    destruct (os.fault (consumed i (files w) m)) as [e2|]; cbn.
    { intros H. by apply not_extended in H. }
    intros H. apply dispatch_sent in H as [-> Hurl]; [|done].
    split_and!; try done. unfold dispatch. by rewrite Hurl. }
  assert (os.name (consumed i (files w) m) = os.name (files w m) ∧
          os.fault (files w m) = None) as [Hname Hm'].
  { destruct (decide (i = m)) as [->|Hne].
    - rewrite consumed_eq in Hm |- *. by split.
    - rewrite consumed_ne in Hm |- * by done. by split. }
  unfold out'. rewrite Hout, Edit_unfold. cbn zeta. cbn [files with_boundary sent with_files rand].
  set (fs2 := consumed m (consumed i (files w))).
  assert (fs2 i = drained (files w i)) as Hi2.
  { unfold fs2. destruct (decide (m = i)) as [->|Hne].
    - by rewrite !consumed_eq.
    - by rewrite consumed_ne, consumed_eq. }
  assert (consumed i fs2 m = drained (consumed i (files w) m)) as Hm2.
  { destruct (decide (i = m)) as [->|Hne].
    - by rewrite consumed_eq, Hi2, consumed_eq.
    - rewrite consumed_ne by done. unfold fs2. by rewrite consumed_eq. }
  unfold read_error. rewrite Hi2, Hm2. cbn [drained os.fault os.name].
  rewrite Hi, Hm. cbn [fmap option_fmap option_map].
  unfold dispatch. cbn -[edit_form request contentType].
  rewrite Hurl. cbn -[edit_form request contentType].
  eexists. split.
  - cbn. rewrite <- app_assoc. reflexivity.
  - rewrite Body_request. unfold edit_form, file_part.
    cbn [drained os.unread os.name negb]. rewrite Hname.
    by rewrite !append_nil_r.
Qed.

(** ** Bodies the decoder refuses *)

Lemma scan_space s stack c :
  json.isSpace c = true →
  s = json.stateBeginValue →
  json.scan_step s stack c = json.scanContinue s stack.
Proof. intros H ->. cbn. unfold json.stateBeginValue_step. by rewrite H. Qed.

Lemma readValue_blank body :
  json.all_space body = true → json.readValue body = inl io_EOF.
Proof.
  unfold json.readValue. induction body as [|c body IH]; [done|].
  cbn [json.all_space json.readValue_from].
  intros [Hc Hb]%andb_true_iff.
  rewrite scan_space by done. rewrite Hc. by apply IH.
Qed.

Lemma Decode_valid body r0 r e :
  json.Valid body = true →
  json.Decode body r0 = (r, Some e) →
  ∃ v, e = json_UnmarshalTypeError v.
Proof.
  intros [v Hv]%Valid_readValue. unfold json.Decode. rewrite Hv.
  intros H. pose proof (typed_unmarshal v r0) as Ht. rewrite H in Ht.
  by apply Ht.
Qed.

(** X9.  A 200 response whose body is empty or holds only white space
    makes each operation return the error [io.EOF] and no results. *)
Theorem blank_body_is_EOF c w req resp :
  http.StatusCode resp = 200 →
  json.all_space (http.RespBody resp) = true →
  let ended (out : World * result) :=
    exchanged w out req resp → out.2 = (nil_slice, Some io_EOF) in
  (∀ prompt size n user responseType,
     ended (Generate c prompt size n user responseType w)) ∧
  (∀ prompt image mask size n user responseType,
     ended (Edit c prompt image mask size n user responseType w)) ∧
  (∀ image size n user responseType,
     ended (Variation c image size n user responseType w)).
Proof.
  intros H200 Hblank ended.
  assert (reply resp = (nil_slice, Some io_EOF)) as Hreply.
  { apply reply_decode_error with (r := zero_Response); [done|].
    unfold json.Decode. by rewrite readValue_blank. }
  unfold ended. split_and!; intros * H.
  - by apply Generate_exchanged in H as [_ ->].
  - by apply Edit_exchanged in H as [-> _].
  - by apply Variation_exchanged in H as [-> _].
Qed.

(** X10.  When the body of a 200 response is valid JSON, the only error an
    operation can return for it is an [UnmarshalTypeError]: a value of the
    text does not fit the field it is stored in.  It is never a syntax
    error or an end of file. *)
Theorem valid_JSON_fails_only_on_types c w req resp :
  http.StatusCode resp = 200 →
  json.Valid (http.RespBody resp) = true →
  let fits_or_not (out : World * result) :=
    exchanged w out req resp →
    out.2.2 = None ∨
    ∃ v, out.2 = (nil_slice, Some (json_UnmarshalTypeError v)) in
  (∀ prompt size n user responseType,
     fits_or_not (Generate c prompt size n user responseType w)) ∧
  (∀ prompt image mask size n user responseType,
     fits_or_not (Edit c prompt image mask size n user responseType w)) ∧
  (∀ image size n user responseType,
     fits_or_not (Variation c image size n user responseType w)).
Proof.
  intros H200 Hvalid fits_or_not.
  assert ((reply resp).2 = None ∨
          ∃ v, reply resp = (nil_slice, Some (json_UnmarshalTypeError v)))
    as Hreply.
  { destruct (json.Decode (http.RespBody resp) zero_Response) as [r [e|]]
      eqn:Hdec.
    - right. destruct (Decode_valid _ _ _ _ Hvalid Hdec) as [v ->].
      exists v. by eapply reply_decode_error.
    - left. by rewrite (reply_decoded _ _ H200 Hdec). }
  unfold fits_or_not. split_and!; intros * H.
  - by apply Generate_exchanged in H as [_ ->].
  - by apply Edit_exchanged in H as [-> _].
  - by apply Variation_exchanged in H as [-> _].
Qed.

(** ** Reading an envelope *)

(** *** The scanner on the text of an envelope *)

Lemma scan_item s es ms k u :
  s = json.stateBeginValue ∨ s = json.stateBeginValueOrEmpty →
  plain_text u = true →
  scan_run s [json.parseArrayValue es; json.parseObjectValue ms (Some k)]
    (item u)
  = Some (json.stateEndValue,
          [json.parseArrayValue (item_value u :: es);
           json.parseObjectValue ms (Some k)]).
Proof.
  intros Hs Hu. unfold item.
  set (stack := [json.parseArrayValue es; json.parseObjectValue ms (Some k)]).
  assert (scan_run s stack (js "{'url':'")
          = Some (json.stateInString EmptyString,
                  json.parseObjectValue [] (Some "url") :: stack)) as Hopen
    by (destruct Hs as [-> | ->]; reflexivity).
  rewrite scan_run_app, Hopen, scan_run_app, scan_plain_text by done.
  reflexivity.
Qed.

Lemma scan_more_items us es ms k :
  Forall (λ u, plain_text u = true) us →
  scan_run json.stateEndValue
    [json.parseArrayValue es; json.parseObjectValue ms (Some k)]
    (more_items us)
  = Some (json.stateEndValue,
          [json.parseArrayValue (rev (item_value <$> us) ++ es);
           json.parseObjectValue ms (Some k)]).
Proof.
  intros Hus. revert es.
  induction Hus as [|u us Hu Hus IH]; intros es; [done|].
  cbn [more_items]. rewrite append_cons, append_nil_l, scan_run_cons.
  change (json.scan_step json.stateEndValue
            [json.parseArrayValue es; json.parseObjectValue ms (Some k)] ",")
    with (json.scanContinue json.stateBeginValue
            [json.parseArrayValue es; json.parseObjectValue ms (Some k)]).
  cbv beta iota.
  rewrite scan_run_app, scan_item by auto.
  rewrite IH. cbn [fmap list_fmap rev]. by rewrite <- app_assoc.
Qed.

Lemma scan_items us ms k :
  Forall (λ u, plain_text u = true) us →
  ∃ s,
    scan_run json.stateBeginValueOrEmpty
      [json.parseArrayValue []; json.parseObjectValue ms (Some k)]
      (items us)
    = Some (s, [json.parseArrayValue (rev (item_value <$> us));
                json.parseObjectValue ms (Some k)]) ∧
    (s = json.stateBeginValueOrEmpty ∨ s = json.stateEndValue).
Proof.
  intros Hus. destruct Hus as [|u us Hu Hus].
  - exists json.stateBeginValueOrEmpty. by split; [|left].
  - exists json.stateEndValue. split; [|by right].
    cbn [items]. rewrite scan_run_app, scan_item by auto.
    by rewrite scan_more_items.
Qed.

(** The text of an envelope is, up to its closing brace, text inside one
    object, which the brace closes. *)
Lemma scan_envelope created urls :
  Forall (λ u, plain_text u = true) urls →
  ∃ text s stack,
    envelope created urls = "{" +:+ text +:+ "}" ∧
    scan_run json.stateBeginStringOrEmpty [json.parseObjectKey [] None] text
      = Some (s, stack) ∧
    json.scan_step s stack "}"
    = json.scanEnd
        (json.JObject
           [("created", json.JNumber (pretty created));
            ("data", json.JArray (item_value <$> urls))]).
Proof.
  intros Hus.
  set (ms := [("created", json.JNumber (pretty created))]).
  destruct (scan_pretty_Z created [json.parseObjectValue [] (Some "created")])
    as (s & Hs & Hnum).
  destruct (scan_items urls ms "data" Hus) as (s' & Hs' & Hend).
  exists (js "'created':" +:+ pretty created +:+ js ",'data':["
          +:+ items urls +:+ "]"),
    json.stateEndValue,
    [json.parseObjectValue
       (("data", json.JArray (rev (rev (item_value <$> urls)))) :: ms) None].
  split; [|split].
  - unfold envelope. rewrite !append_assoc. reflexivity.
  - rewrite scan_run_app.
    change (scan_run json.stateBeginStringOrEmpty
              [json.parseObjectKey [] None] (js "'created':"))
      with (Some (json.stateBeginValue,
                  [json.parseObjectValue [] (Some "created")])).
    cbv beta iota. rewrite scan_run_app, Hs, scan_run_app.
    assert (scan_run s [json.parseObjectValue [] (Some "created")]
              (js ",'data':[")
            = Some (json.stateBeginValueOrEmpty,
                    [json.parseArrayValue [];
                     json.parseObjectValue ms (Some "data")])) as ->
      by (destruct Hnum as [-> | ->]; reflexivity).
    rewrite scan_run_app, Hs'.
    destruct Hend as [-> | ->]; reflexivity.
  - cbn. by rewrite rev_involutive.
Qed.

Lemma readValue_envelope created urls rest :
  Forall (λ u, plain_text u = true) urls →
  json.readValue (envelope created urls +:+ rest)
  = inr (json.JObject
           [("created", json.JNumber (pretty created));
            ("data", json.JArray (item_value <$> urls))]).
Proof.
  intros Hus.
  destruct (scan_envelope created urls Hus)
    as (text & s & stack & -> & Hrun & Hclose).
  unfold json.readValue. rewrite !append_assoc, append_cons, append_nil_l.
  cbn [json.readValue_from].
  change (json.scan_step json.stateBeginValue [] "{")
    with (json.scanContinue json.stateBeginStringOrEmpty
            [json.parseObjectKey [] None]).
  cbv beta iota.
  destruct (readValue_from_app text ("}" +:+ rest) _ _ _ _
              (false || negb (json.isSpace "{")) Hrun) as [ns ->].
  rewrite append_cons, append_nil_l. cbn [json.readValue_from].
  by rewrite Hclose.
Qed.

(** *** Storing the value of an envelope *)

Lemma unquote_plain_ascii s :
  plain_ascii_text s = true → json.unquote_from 0 s = s.
Proof.
  induction s as [|c s IH]; [done|].
  cbn [plain_ascii_text json.unquote_from]. unfold plain_ascii, plain.
  intros [[Hplain Hlt]%andb_true_iff Hs]%andb_true_iff.
  apply andb_true_iff in Hplain as [_ H92%negb_true_iff].
  rewrite H92, Hlt. by rewrite IH.
Qed.

Lemma plain_ascii_plain s : plain_ascii_text s = true → plain_text s = true.
Proof.
  induction s as [|c s IH]; [done|]. cbn. unfold plain_ascii.
  intros [[-> _]%andb_true_iff Hs]%andb_true_iff. by apply IH.
Qed.

Lemma pretty_N_char_value x :
  (x < 10)%N → byte (pretty_N_char x) - 48 = Z.of_N x.
Proof.
  intros Hx. destruct x as [|p]; [done|].
  do 4 (try destruct p as [p|p|]); try reflexivity; lia.
Qed.

(** The digits of a number are read back as the number. *)
Lemma digits_value_pretty_N_go x s :
  ∃ k, ∀ acc,
    json.digits_value acc (pretty_N_go x s)
    = json.digits_value (acc * k + Z.of_N x) s.
Proof.
  revert s. induction (N.lt_wf_0 x) as [x _ IH]; intros s.
  destruct (decide (x = 0)%N) as [->|Hpos].
  - exists 1. intros acc. rewrite pretty_N_go_0. f_equal. lia.
  - rewrite pretty_N_go_step by lia.
    destruct (IH (x `div` 10)%N) with
      (s := String (pretty_N_char (x `mod` 10)) s) as [k Hk].
    { apply N.div_lt; lia. }
    exists (k * 10). intros acc. rewrite Hk. cbn [json.digits_value].
    rewrite pretty_N_char_digit.
    rewrite pretty_N_char_value by (apply N.mod_lt; lia).
    f_equal. rewrite (N.div_mod x 10) at 3 by lia.
    rewrite N2Z.inj_add, N2Z.inj_mul. lia.
Qed.

Lemma digits_value_pretty_N (x : N) :
  json.digits_value 0 (pretty x) = Some (Z.of_N x).
Proof.
  unfold pretty, pretty_N. destruct (decide (x = 0)%N) as [->|Hpos].
  - reflexivity.
  - destruct (digits_value_pretty_N_go x EmptyString) as [k ->].
    cbn. f_equal.
Qed.

Lemma ParseInt_pretty v : int64 v → json.ParseInt (pretty v) = Some v.
Proof.
  unfold int64. intros Hv. destruct v as [|p|p].
  - reflexivity.
  - change (pretty (Z.pos p)) with (pretty (N.pos p)).
    pose proof (digits_value_pretty_N (N.pos p)) as Hd.
    destruct (pretty_positive_digits p) as (d & ds & Hp & Hlead & _).
    change (pretty p) with (pretty (N.pos p)) in Hp.
    rewrite Hp in Hd |- *. unfold json.ParseInt.
    assert ((byte d =? 45) = false) as ->.
    { apply andb_true_iff in Hlead as [H1%Z.leb_le _]. apply Z.eqb_neq. lia. }
    rewrite Hd.
    destruct (Z.leb_spec (- 2 ^ 63) (Z.of_N (N.pos p))); [|lia].
    destruct (Z.ltb_spec (Z.of_N (N.pos p)) (2 ^ 63)); [|lia].
    reflexivity.
  - change (pretty (Z.neg p)) with ("-" +:+ pretty (N.pos p)).
    pose proof (digits_value_pretty_N (N.pos p)) as Hd.
    destruct (pretty_positive_digits p) as (d & ds & Hp & Hlead & _).
    change (pretty p) with (pretty (N.pos p)) in Hp.
    rewrite Hp in Hd |- *. rewrite append_cons, append_nil_l.
    unfold json.ParseInt.
    change (byte "-" =? 45) with true. cbv iota beta.
    rewrite Hd.
    destruct (Z.leb_spec (- 2 ^ 63) (- Z.of_N (N.pos p))); [|lia].
    destruct (Z.ltb_spec (- Z.of_N (N.pos p)) (2 ^ 63)); [|lia].
    reflexivity.
Qed.

Lemma store_elements_items us acc saved :
  Forall (λ u, plain_ascii_text u = true) us →
  json.store_elements (item_value <$> us) (length acc) acc saved
  = ((acc ++ (Build_Datum <$> us))%list, saved).
Proof.
  intros Hus. revert acc.
  induction Hus as [|u us Hu Hus IH]; intros acc.
  - cbn. by rewrite app_nil_r.
  - cbn [fmap list_fmap json.store_elements].
    rewrite Nat.leb_refl.
    rewrite lookup_app_r, Nat.sub_diag by done.
    cbn [lookup list_lookup default].
    unfold item_value at 1. cbn [json.store_Datum json.store_Datum_members].
    change (json.matches (json.unquote "url") "url") with true.
    cbv iota beta. cbn [json.store_string]. unfold json.unquote.
    rewrite unquote_plain_ascii by done.
    replace (<[length acc := {| URL := u |}]> (acc ++ [json.zero_Datum]))%list
      with (acc ++ [{| URL := u |}])%list.
    2:{ rewrite insert_app_r_alt, Nat.sub_diag by done. reflexivity. }
    specialize (IH (acc ++ [{| URL := u |}])%list).
    rewrite length_app in IH. cbn [length] in IH.
    rewrite Nat.add_1_r in IH. rewrite IH.
    by rewrite <- app_assoc.
Qed.

Lemma Decode_envelope created urls rest :
  int64 created →
  Forall (λ u, plain_ascii_text u = true) urls →
  json.Decode (envelope created urls +:+ rest) zero_Response
  = ({| Created := created;
        Data := Slice (Build_Datum <$> urls) (length urls) |}, None).
Proof.
  intros Hc Hus. unfold json.Decode.
  rewrite readValue_envelope
    by (eapply Forall_impl; [done | apply plain_ascii_plain]).
  cbn [json.unmarshal json.store_Response_members].
  change (json.matches (json.unquote "created") "created") with true.
  change (json.matches (json.unquote "data") "created") with false.
  change (json.matches (json.unquote "data") "data") with true.
  cbv iota beta. cbn [json.store_int64]. rewrite ParseInt_pretty by done.
  cbn [json.store_slice zero_Response Data Created].
  pose proof (store_elements_items urls [] None Hus) as Hst.
  cbn [length app] in Hst. rewrite Hst.
  rewrite length_fmap.
  destruct urls; reflexivity.
Qed.

(** X11.  The compact text of an envelope is read back as that envelope.
    When the body of a 200 response starts with the JSON text of a time
    stamp within 64 bits and of a list of URLs made of printable ASCII
    other than the double quote and the backslash, each operation returns
    those URLs, in their order, and a nil error.  What follows the text in
    the body is not looked at. *)
Theorem envelope_is_read_back c w req resp created urls rest :
  http.StatusCode resp = 200 →
  http.RespBody resp = envelope created urls +:+ rest →
  int64 created →
  Forall (λ u, plain_ascii_text u = true) urls →
  let returned (out : World * result) :=
    exchanged w out req resp →
    out.2 = (Slice (Build_Datum <$> urls) (length urls), None) in
  (∀ prompt size n user responseType,
     returned (Generate c prompt size n user responseType w)) ∧
  (∀ prompt image mask size n user responseType,
     returned (Edit c prompt image mask size n user responseType w)) ∧
  (∀ image size n user responseType,
     returned (Variation c image size n user responseType w)).
Proof.
  intros H200 Hbody Hc Hus returned.
  assert (reply resp
          = (Slice (Build_Datum <$> urls) (length urls), None)) as Hreply.
  { erewrite reply_decoded; [|done|rewrite Hbody; by apply Decode_envelope].
    reflexivity. }
  unfold returned. split_and!; intros * H.
  - by apply Generate_exchanged in H as [_ ->].
  - by apply Edit_exchanged in H as [-> _].
  - by apply Variation_exchanged in H as [-> _].
Qed.

(** ** Text through the encoder *)

(** What the encoder writes for an ASCII byte is read back as that byte. *)
Lemma unquote_ascii b t :
  (byte b <? 128) = true →
  json.unquote_from 0
    ((if json.htmlSafeSet b then str1 b else json.escape_byte b) +:+ t)
  = String b (json.unquote_from 0 t).
Proof.
  destruct b as [[] [] [] [] [] [] [] []]; intros H; try discriminate H;
    match goal with
    | |- context [if ?c then ?x else ?y] =>
        let v := eval vm_compute in (if c then x else y) in
        change (if c then x else y) with v
    end;
    rewrite ?append_cons, ?append_nil_l; reflexivity.
Qed.

Lemma unquote_appendString_ascii s :
  ascii_text s = true →
  json.unquote (json.appendString_from json.Scan s) = s.
Proof.
  unfold json.unquote. induction s as [|b s IH]; [done|].
  cbn [ascii_text json.appendString_from].
  intros [Hb Hs]%andb_true_iff. rewrite Hb.
  rewrite unquote_ascii by done. by rewrite IH.
Qed.

(** X12.  ASCII text comes through the encoder unharmed.  In the body
    [Generate] sends, the member [prompt] is a JSON string that denotes
    the prompt, byte for byte, whenever the prompt is ASCII, control
    characters, quotes and the characters HTML gives a meaning included;
    so does the member [user] for a user that is ASCII. *)
Theorem ascii_text_is_read_back c prompt size n user responseType w req :
  http.wire (net (Generate c prompt size n user responseType w).1)
    = (http.wire (net w) ++ [req])%list →
  ∃ raw ms,
    json.readValue (http.Body req)
      = inr (json.JObject (("prompt", json.JString raw) :: ms)) ∧
    (ascii_text prompt = true → json.unquote raw = prompt) ∧
    (∀ u, user = Some u →
       ∃ raw', ("user", json.JString raw') ∈ ms ∧
               (ascii_text u = true → json.unquote raw' = u)).
Proof.
  intros H. apply Generate_sent in H as ->. rewrite Body_request.
  destruct (generate_body_is_an_object prompt n (sizeStr_of size)
              responseType user) as [_ ->].
  eexists _, _. split; [reflexivity|]. split.
  - apply unquote_appendString_ascii.
  - intros u ->. exists (json.appendString_from json.Scan u). split.
    + destruct n, (sizeStr_of size), responseType; cbn; set_solver.
    + apply unquote_appendString_ascii.
Qed.

(** ** The boundary and the client *)

Lemma lower_hex_no_tspecial b :
  lower_hex_text b = true → multipart.ContainsAny_tspecials b = false.
Proof.
  induction b as [|c b IH]; [done|].
  cbn [lower_hex_text multipart.ContainsAny_tspecials].
  intros [Hc Hb]%andb_true_iff. rewrite IH by done.
  rewrite orb_false_r. clear IH Hb.
  destruct c as [[] [] [] [] [] [] [] []]; try discriminate Hc; reflexivity.
Qed.

(** X13.  A boundary made of lower-case hexadecimal digits, as the writer
    draws them, is announced as it is, without quotes: the Content-Type of
    a request of [Edit] or [Variation] is then
    multipart/form-data; boundary={boundary}. *)
Theorem hex_boundary_is_announced_bare
    c prompt image mask size n user responseType w req :
  lower_hex_text (rand w) = true →
  let put (out : World * result) :=
    http.wire (net out.1) = (http.wire (net w) ++ [req])%list in
  put (Edit c prompt image mask size n user responseType w) ∨
  put (Variation c image size n user responseType w) →
  http.Header req !! "Content-Type"
    = Some ["multipart/form-data; boundary=" +:+ rand w].
Proof.
  intros Hhex put H.
  assert (contentType (rand w) = "multipart/form-data; boundary=" +:+ rand w)
    as Hct.
  { unfold contentType, multipart.FormDataContentType. cbn.
    by rewrite lower_hex_no_tspecial. }
  destruct H as [H|H].
  - apply Edit_sent in H as (i & m & _ & _ & _ & ->). by rewrite <- Hct.
  - apply Variation_sent in H as (i & _ & ->). by rewrite <- Hct.
Qed.

(** X14.  A client made by [NewClient] sends its requests to the three
    paths under https://api.openai.com/v1/images, with the key it was
    given as the bearer token and go-dalle as the user agent; its HTTP
    client has a timeout of thirty seconds. *)
Theorem NewClient_requests key prompt image mask size n user responseType w req :
  let c := NewClient key in
  let put (out : World * result) :=
    http.wire (net out.1) = (http.wire (net w) ++ [req])%list in
  (put (Generate c prompt size n user responseType w) →
   http.URL req = "https://api.openai.com/v1/images/generations") ∧
  (put (Edit c prompt image mask size n user responseType w) →
   http.URL req = "https://api.openai.com/v1/images/edits") ∧
  (put (Variation c image size n user responseType w) →
   http.URL req = "https://api.openai.com/v1/images/variations") ∧
  (put (Generate c prompt size n user responseType w) ∨
   put (Edit c prompt image mask size n user responseType w) ∨
   put (Variation c image size n user responseType w) →
   http.Header req !! "Authorization" = Some ["Bearer " +:+ key] ∧
   http.Header req !! "User-Agent" = Some ["go-dalle"]) ∧
  http.Timeout (httpClient c) = 30 * 1000000000.
Proof.
  intros c put. split_and!.
  - intros H. by apply Generate_sent in H as ->.
  - intros H. by apply Edit_sent in H as (i & m & _ & _ & _ & ->).
  - intros H. by apply Variation_sent in H as (i & _ & ->).
  - intros [H|[H|H]].
    + by apply Generate_sent in H as ->.
    + by apply Edit_sent in H as (i & m & _ & _ & _ & ->).
    + by apply Variation_sent in H as (i & _ & ->).
  - reflexivity.
Qed.

(** ** The bytes of a JSON body *)

Lemma html_safe_text_app a b :
  html_safe_text (a +:+ b) = html_safe_text a && html_safe_text b.
Proof.
  induction a as [|c a IH]; [done|].
  rewrite append_cons. cbn [html_safe_text]. by rewrite IH, andb_assoc.
Qed.

Lemma html_safe_high c : (128 <=? byte c) = true → html_safe c = true.
Proof.
  intros H%Z.leb_le. unfold html_safe.
  destruct (Z.leb_spec 32 (byte c)); [|lia].
  destruct (Z.eqb_spec (byte c) 60); [lia|].
  destruct (Z.eqb_spec (byte c) 62); [lia|].
  destruct (Z.eqb_spec (byte c) 38); [lia|]. done.
Qed.

Lemma html_safe_ascii b :
  (byte b <? 128) = true →
  html_safe_text (if json.htmlSafeSet b then str1 b else json.escape_byte b)
  = true.
Proof.
  destruct b as [[] [] [] [] [] [] [] []]; intros H; try discriminate H;
    vm_compute; reflexivity.
Qed.

Lemma html_safe_appendString_from s m :
  pending_ok m s = true →
  html_safe_text (json.appendString_from m s) = true.
Proof.
  revert m. induction s as [|b rest IH]; intros m Hm.
  { by destruct m. }
  assert (html_safe_text (json.appendString_from json.Scan (String b rest))
          = true) as Hscan.
  { clear Hm. cbn [json.appendString_from].
    destruct (byte b <? 128) eqn:Hb.
    - rewrite html_safe_text_app, html_safe_ascii by done. by apply IH.
    - destruct (utf8.DecodeRuneInString _) as [c size] eqn:Hdec.
      destruct ((c =? utf8.RuneError) && (size =? 1)%nat) eqn:Hbad.
      { rewrite html_safe_text_app. by rewrite IH. }
      destruct ((c =? 8232) || (c =? 8233)) eqn:Hsep.
      { rewrite !html_safe_text_app. rewrite IH by done.
        apply orb_true_iff in Hsep as [->%Z.eqb_eq| ->%Z.eqb_eq];
          reflexivity. }
      cbn [html_safe_text]. rewrite html_safe_high.
      2:{ apply Z.leb_le. apply Z.ltb_ge in Hb. lia. }
      apply IH. cbn. by eapply DecodeRune_continues. }
  destruct m as [|[|k]|[|k]]; try apply Hscan.
  - cbn in Hm. apply andb_true_iff in Hm as [Hc Hk].
    cbn [json.appendString_from html_safe_text].
    rewrite html_safe_high by done. by apply IH.
  - cbn [json.appendString_from]. by apply IH.
Qed.

Lemma html_safe_digits ds : all_digits ds = true → html_safe_text ds = true.
Proof.
  induction ds as [|c ds IH]; [done|]. cbn [all_digits html_safe_text].
  intros [Hc Hds]%andb_true_iff. rewrite IH by done.
  rewrite andb_true_r. clear IH Hds.
  destruct c as [[] [] [] [] [] [] [] []]; try discriminate Hc; reflexivity.
Qed.

Lemma html_safe_pretty (v : Z) : html_safe_text (pretty v) = true.
Proof.
  assert (∀ p : positive, html_safe_text (pretty (N.pos p)) = true) as Hpos.
  { intros p. destruct (pretty_positive_digits p) as (d & ds & Hp & Hd & Hds).
    change (pretty p) with (pretty (N.pos p)) in Hp. rewrite Hp.
    apply (html_safe_digits (String d ds)). cbn [all_digits].
    rewrite Hds, andb_true_r. unfold json.isDigit.
    apply andb_true_iff in Hd as [H1%Z.leb_le H2].
    rewrite H2, andb_true_r. apply Z.leb_le. lia. }
  destruct v as [|p|p].
  - reflexivity.
  - apply Hpos.
  - change (pretty (Z.neg p)) with ("-" +:+ pretty (N.pos p)).
    rewrite html_safe_text_app. by rewrite Hpos.
Qed.

Lemma html_safe_encode_value v : html_safe_text (json.encode_value v) = true.
Proof.
  assert (∀ s, html_safe_text (json.appendString s) = true) as Hs.
  { intros s. unfold json.appendString.
    rewrite !html_safe_text_app. by rewrite html_safe_appendString_from. }
  destruct v as [s|[p|]|[s|]]; cbn [json.encode_value]; try apply Hs;
    try reflexivity.
  apply html_safe_pretty.
Qed.

Lemma html_safe_encode_fields fs next :
  html_safe next = true →
  Forall (λ f, html_safe_text (json.name f) = true) fs →
  html_safe_text (json.encode_fields next fs) = true.
Proof.
  intros Hnext Hfs. revert next Hnext.
  induction Hfs as [|f fs Hf Hfs IH]; intros next Hnext.
  - rewrite encode_fields_nil. by destruct (Ascii.eqb next "{").
  - rewrite encode_fields_cons.
    destruct (json.omitEmpty f && json.isEmptyValue (json.contents f));
      [by apply IH|].
    rewrite !html_safe_text_app. cbn [str1 html_safe_text].
    rewrite Hnext, Hf, html_safe_encode_value. by rewrite IH.
Qed.

(** X15.  Whatever bytes the prompt and the other texts hold, the body
    [Generate] sends has no control character and none of the characters
    <, > and &: the encoder writes those escaped. *)
Theorem Generate_body_is_HTML_safe c prompt size n user responseType w req :
  http.wire (net (Generate c prompt size n user responseType w).1)
    = (http.wire (net w) ++ [req])%list →
  html_safe_text (http.Body req) = true.
Proof.
  intros H. apply Generate_sent in H as ->. rewrite Body_request.
  unfold generate_body, json.Marshal. cbn [fst].
  apply html_safe_encode_fields; [reflexivity|].
  unfold json.GenerateRequest_fields. repeat constructor.
Qed.

(** ** A body cut short *)

Lemma scan_run_prefix p q s stack r :
  scan_run s stack (p +:+ q) = Some r → is_Some (scan_run s stack p).
Proof. rewrite scan_run_app. by destruct (scan_run s stack p). Qed.

(** Inside a container the scanner stays inside a container for as long as
    it goes on. *)
Lemma scan_step_inside s stack c s' stack' :
  stack ≠ [] →
  json.scan_step s stack c = json.scanContinue s' stack' → stack' ≠ [].
Proof.
  destruct stack as [|f st]; [done|]. intros _.
  unfold json.scan_step, json.state0_step, json.endNumber,
    json.stateBeginValue_step, json.stateEndValue_step,
    json.stateBeginString_step, json.stateESign_step,
    json.endValue, json.pushParseState.
  repeat case_match; try discriminate; intros ?; by simplify_eq.
Qed.

(** Inside a container the end of the text does not complete a value. *)
Lemma scan_step_eof_inside s stack v :
  stack ≠ [] → json.scan_step s stack " " ≠ json.scanEnd v.
Proof.
  destruct stack as [|f st]; [done|]. intros _.
  unfold json.scan_step, json.state0_step, json.endNumber,
    json.stateBeginValue_step, json.stateEndValue_step,
    json.stateBeginString_step, json.stateESign_step,
    json.endValue, json.pushParseState.
  repeat case_match; try discriminate; simplify_eq; by vm_compute.
Qed.

Lemma readValue_from_inside p s stack r :
  stack ≠ [] →
  scan_run s stack p = Some r →
  json.readValue_from s stack true p = inl io_ErrUnexpectedEOF.
Proof.
  revert s stack. induction p as [|c p IH]; intros s stack Hin.
  - intros _. cbn [json.readValue_from].
    pose proof (scan_step_eof_inside s stack) as Hend.
    destruct (json.scan_step s stack " ") as [| v |]; [done| |done].
    by destruct (Hend v Hin).
  - rewrite scan_run_cons. cbn [json.readValue_from].
    destruct (json.scan_step s stack c) as [s' stack'| |] eqn:Hstep;
      [|done..].
    apply IH. by eapply scan_step_inside.
Qed.

Lemma proper_prefix (text p q : string) (c : ascii) :
  text +:+ str1 c = p +:+ q → q ≠ EmptyString → ∃ q', text = p +:+ q'.
Proof.
  revert text. induction p as [|a p IH]; intros text H Hq.
  - by exists text.
  - destruct text as [|b text].
    + rewrite append_nil_l, append_cons in H. unfold str1 in H.
      injection H as _ H. destruct p; [|discriminate H].
      rewrite append_nil_l in H. by subst q.
    + rewrite !append_cons in H. injection H as -> H.
      destruct (IH text H Hq) as [q' ->]. exists q'.
      by rewrite append_cons.
Qed.

Lemma readValue_cut_envelope created urls p q :
  Forall (λ u, plain_text u = true) urls →
  envelope created urls = p +:+ q →
  p ≠ EmptyString → q ≠ EmptyString →
  json.readValue p = inl io_ErrUnexpectedEOF.
Proof.
  intros Hus Henv Hp Hq.
  destruct (scan_envelope created urls Hus)
    as (text & s & stack & Htext & Hrun & _).
  rewrite Htext in Henv.
  change ("{" +:+ text +:+ "}") with (("{" +:+ text) +:+ str1 "}") in Henv.
  apply proper_prefix in Henv as [q' Hq']; [|done].
  destruct p as [|a p]; [done|].
  rewrite !append_cons, append_nil_l in Hq'. injection Hq' as <- ->.
  apply scan_run_prefix in Hrun as [r Hr].
  unfold json.readValue. cbn [json.readValue_from].
  change (json.scan_step json.stateBeginValue [] "{")
    with (json.scanContinue json.stateBeginStringOrEmpty
            [json.parseObjectKey [] None]).
  cbv beta iota. by eapply readValue_from_inside.
Qed.

(** X16.  A 200 response whose body is the text of an envelope cut short,
    anywhere after its first byte and before its last, makes each
    operation return the error [io.ErrUnexpectedEOF] and no results: the
    elements that were complete before the cut are not returned. *)
Theorem cut_envelope_is_unexpected_EOF c w req resp created urls missing :
  http.StatusCode resp = 200 →
  Forall (λ u, plain_text u = true) urls →
  envelope created urls = http.RespBody resp +:+ missing →
  http.RespBody resp ≠ EmptyString → missing ≠ EmptyString →
  let ended (out : World * result) :=
    exchanged w out req resp →
    out.2 = (nil_slice, Some io_ErrUnexpectedEOF) in
  (∀ prompt size n user responseType,
     ended (Generate c prompt size n user responseType w)) ∧
  (∀ prompt image mask size n user responseType,
     ended (Edit c prompt image mask size n user responseType w)) ∧
  (∀ image size n user responseType,
     ended (Variation c image size n user responseType w)).
Proof.
  intros H200 Hus Henv Hbody Hmissing ended.
  assert (reply resp = (nil_slice, Some io_ErrUnexpectedEOF)) as Hreply.
  { apply reply_decode_error with (r := zero_Response); [done|].
    unfold json.Decode.
    by rewrite (readValue_cut_envelope _ _ _ _ Hus Henv Hbody Hmissing). }
  unfold ended. split_and!; intros * H.
  - by apply Generate_exchanged in H as [_ ->].
  - by apply Edit_exchanged in H as [-> _].
  - by apply Variation_exchanged in H as [-> _].
Qed.

(** ** One file object for the image and the mask *)

(** X17.  When one and the same file object is given to [Edit] as the image
    and as the mask, the request that is sent has the bytes of the file in
    the image part and a mask part with the name of the file and no
    content. *)
Theorem same_file_gives_an_empty_mask
    c prompt f size n user responseType w req :
  let out := Edit c prompt (Some f) (Some f) size n user responseType w in
  let b := rand w in
  http.wire (net out.1) = (http.wire (net w) ++ [req])%list →
  http.Body req =
    file_part b true "image" (files w f)
    +:+ multipart.part_head b true
          (multipart.file_header "mask" (os.name (files w f)))
    +:+ field_part b "prompt" prompt
    +:+ options b (nStr_of n) (sizeStr_of size) user responseType
    +:+ multipart.trailer b.
Proof.
  intros out b H. unfold out in H.
  apply Edit_sent in H as (i & m & [= <-] & [= <-] & _ & ->).
  rewrite Body_request, consumed_eq. unfold edit_form, file_part at 2.
  cbn [drained os.unread os.name negb]. by rewrite append_nil_r.
Qed.

(** ** The further properties at sample inputs *)

(** The headers of a request of [Generate]. *)
Lemma sample_request_carries_the_key :
  let c := NewClient "key" in
  let req :=
    request c "https://api.openai.com/v1/images/generations"
      "application/json" (js "{'prompt':'a horse'}") in
  http.Header req !! "Authorization" = Some ["Bearer key"] ∧
  http.Header req !! "User-Agent" = Some ["go-dalle"] ∧
  http.Header req !! "Content-Type" = Some ["application/json"] ∧
  http.Header req !! "Accept" = None.
Proof.
  intros c req.
  assert (http.wire
            (net (Generate c "a horse" None None None None
                    (stub 200 one_image)).1)
          = (http.wire (net (stub 200 one_image)) ++ [req])%list) as Hput
    by (vm_compute; reflexivity).
  destruct (requests_carry_key_and_agent c "a horse" None None None None
              None None (stub 200 one_image) req (or_introl Hput))
    as (_ & HA & HU & _ & HC & Hno).
  split; [exact HA|]. split; [exact HU|]. split; [exact (HC Hput)|].
  apply Hno; discriminate.
Defined.

(** The same file object for the image and the mask. *)
Lemma sample_file_twice :
  let w := stub 200 one_image in
  let out := Edit (NewClient "key") "a horse" (Some 1%N) (Some 1%N)
               None None None None w in
  ∃ req,
    http.wire (net out.1) = [req] ∧
    http.Body req =
      file_part sample_boundary true "image" (sample_files 1%N)
      +:+ multipart.part_head sample_boundary true
            (multipart.file_header "mask" "otter.png")
      +:+ field_part sample_boundary "prompt" "a horse"
      +:+ multipart.trailer sample_boundary.
Proof.
  intros w out. eexists. split; [vm_compute; reflexivity|].
  apply (same_file_gives_an_empty_mask (NewClient "key") "a horse" 1%N
           None None None None w).
  vm_compute; reflexivity.
Defined.

(** The boundary of the samples is announced without quotes. *)
Lemma sample_boundary_is_bare :
  let w := stub 200 one_image in
  let out := Variation (NewClient "key") (Some 1%N) None None None None w in
  ∃ req,
    http.wire (net out.1) = [req] ∧
    http.Header req !! "Content-Type"
      = Some ["multipart/form-data; boundary=" +:+ sample_boundary].
Proof.
  intros w out. eexists. split; [vm_compute; reflexivity|].
  apply (hex_boundary_is_announced_bare (NewClient "key") EmptyString
           (Some 1%N) None None None None None w).
  - vm_compute; reflexivity.
  - right. vm_compute; reflexivity.
Defined.

(** An image whose reading fails, in [Edit] and in [Variation]. *)
Lemma faulty_image_ends_the_call :
  let w := faulty_image (stub 200 one_image) in
  let err := fs_PathError "read" "otter.png" (syscall_Errno 5) in
  let edit := Edit (NewClient "key") "a horse" (Some 1%N) (Some 2%N)
                None None None None w in
  let variation := Variation (NewClient "key") (Some 1%N)
                     None None None None w in
  edit.2 = (nil_slice, Some err) ∧
  http.wire (net edit.1) = [] ∧
  os.unread (files edit.1 2%N) = "mask-bytes" ∧
  variation.2 = (nil_slice, Some err).
Proof.
  intros w err edit variation.
  assert (os.fault (files w 1%N) = Some (syscall_Errno 5)) as Hfault
    by reflexivity.
  destruct (read_error_ends_the_operation (NewClient "key") "a horse" 1%N
              None None None None w (syscall_Errno 5) Hfault)
    as (HE & _ & HV & _).
  destruct (HE 2%N) as (Hres & Hnet & Hmask).
  assert (2%N ≠ 1%N) as Hne by discriminate.
  split; [exact Hres|]. split; [exact (f_equal http.wire Hnet)|].
  split; [exact (f_equal os.unread (Hmask Hne)) | exact HV].
Defined.

(** Two calls of [Edit] for the same files. *)
Lemma sample_files_are_empty_the_second_time :
  let c := NewClient "key" in
  let w := stub 200 one_image in
  let out := Edit c "a horse" (Some 1%N) (Some 2%N) None None None None w in
  let out' := Edit c "a cat" (Some 1%N) (Some 2%N) None None None None
                (with_boundary "0a1b" out.1) in
  ∃ req req',
    http.wire (net out'.1) = [req; req'] ∧
    http.Body req =
      file_part sample_boundary true "image" (sample_files 1%N)
      +:+ file_part sample_boundary false "mask" (sample_files 2%N)
      +:+ field_part sample_boundary "prompt" "a horse"
      +:+ multipart.trailer sample_boundary ∧
    http.Body req' =
      multipart.part_head "0a1b" false
        (multipart.file_header "image" "otter.png")
      +:+ multipart.part_head "0a1b" true
            (multipart.file_header "mask" "mask.png")
      +:+ field_part "0a1b" "prompt" "a cat"
      +:+ multipart.trailer "0a1b".
Proof.
  intros c w out out'.
  set (req := request c "https://api.openai.com/v1/images/edits"
                (contentType sample_boundary)
                (edit_form sample_boundary "a horse" (sample_files 1%N)
                   (sample_files 2%N) None None None None)).
  assert (http.wire (net out.1) = (http.wire (net w) ++ [req])%list) as Hput
    by (vm_compute; reflexivity).
  destruct (second_Edit_sends_empty_files c "a horse" 1%N 2%N None None None
              None "a cat" None None None None "0a1b" w req Hput)
    as (req' & Hwire & Hbody).
  exists req, req'. split; [exact Hwire|]. split; [reflexivity | exact Hbody].
Defined.

(** A service that cannot be reached. *)
Lemma connection_refused_is_wrapped :
  (Generate (NewClient "key") "a horse" None None None None
     (unreachable connection_refused)).2
  = (nil_slice,
     Some (url_Error "Post" "https://api.openai.com/v1/images/generations"
             connection_refused)).
Proof.
  set (c := NewClient "key"). set (w := unreachable connection_refused).
  set (req := request c "https://api.openai.com/v1/images/generations"
                "application/json" (js "{'prompt':'a horse'}")).
  assert (http.remote (net w) req = inl connection_refused) as Hfail
    by reflexivity.
  destruct (transport_error_is_wrapped c w req connection_refused Hfail)
    as (HG & _).
  apply HG. vm_compute; reflexivity.
Defined.

(** A body of one space. *)
Lemma one_space_is_EOF :
  (Generate (NewClient "key") "a horse" None None None None
     (stub 200 " ")).2 = (nil_slice, Some io_EOF).
Proof.
  set (c := NewClient "key"). set (w := stub 200 " ").
  set (req := request c "https://api.openai.com/v1/images/generations"
                "application/json" (js "{'prompt':'a horse'}")).
  set (resp := {| http.StatusCode := 200; http.RespBody := " " |}).
  assert (http.StatusCode resp = 200) as H200 by reflexivity.
  assert (json.all_space (http.RespBody resp) = true) as Hblank
    by reflexivity.
  destruct (blank_body_is_EOF c w req resp H200 Hblank) as (HG & _).
  apply HG. split; vm_compute; reflexivity.
Defined.

(** The body of one image, two bytes short. *)
Lemma cut_image_is_unexpected_EOF :
  (Variation (NewClient "key") (Some 1%N) None None None None
     (stub 200 cut_image)).2 = (nil_slice, Some io_ErrUnexpectedEOF).
Proof.
  set (c := NewClient "key"). set (w := stub 200 cut_image).
  set (req := request c "https://api.openai.com/v1/images/variations"
                (contentType sample_boundary)
                (variation_form sample_boundary (sample_files 1%N)
                   None None None None)).
  set (resp := {| http.StatusCode := 200; http.RespBody := cut_image |}).
  assert (http.StatusCode resp = 200) as H200 by reflexivity.
  assert (Forall (λ u, plain_text u = true) ["u"]) as Hus
    by (repeat constructor).
  assert (envelope 1 ["u"] = http.RespBody resp +:+ "]}") as Henv
    by reflexivity.
  assert (http.RespBody resp ≠ EmptyString) as Hbody by discriminate.
  assert ("]}" ≠ EmptyString) as Hmissing by discriminate.
  destruct (cut_envelope_is_unexpected_EOF c w req resp 1 ["u"] "]}"
              H200 Hus Henv Hbody Hmissing) as (_ & _ & HV).
  apply HV. split; vm_compute; reflexivity.
Defined.

(** A time stamp that is a string: valid JSON that does not fit. *)
Lemma string_for_created_is_a_type_error :
  let body := js "{'created':'now','data':[]}" in
  let out := Generate (NewClient "key") "a horse" None None None None
               (stub 200 body) in
  json.Valid body = true ∧
  out.2 = (nil_slice, Some (json_UnmarshalTypeError "string")) ∧
  (out.2.2 = None ∨
   ∃ v, out.2 = (nil_slice, Some (json_UnmarshalTypeError v))).
Proof.
  intros body out.
  set (c := NewClient "key"). set (w := stub 200 body).
  set (req := request c "https://api.openai.com/v1/images/generations"
                "application/json" (js "{'prompt':'a horse'}")).
  set (resp := {| http.StatusCode := 200; http.RespBody := body |}).
  assert (http.StatusCode resp = 200) as H200 by reflexivity.
  assert (json.Valid (http.RespBody resp) = true) as Hvalid
    by (vm_compute; reflexivity).
  destruct (valid_JSON_fails_only_on_types c w req resp H200 Hvalid)
    as (HG & _).
  split; [exact Hvalid|]. split; [vm_compute; reflexivity|].
  apply HG. split; vm_compute; reflexivity.
Defined.

(** Two images, with a line feed after the envelope. *)
Lemma two_images_are_returned :
  (Generate (NewClient "key") "a horse" None None None None
     (stub 200 two_images)).2
  = (Slice [{| URL := "https://example.com/a.png" |};
            {| URL := "https://example.com/b.png?st=1&se=2" |}] 2, None).
Proof.
  set (c := NewClient "key"). set (w := stub 200 two_images).
  set (req := request c "https://api.openai.com/v1/images/generations"
                "application/json" (js "{'prompt':'a horse'}")).
  set (resp := {| http.StatusCode := 200; http.RespBody := two_images |}).
  assert (http.StatusCode resp = 200) as H200 by reflexivity.
  assert (http.RespBody resp = envelope 1700000000 sample_urls +:+ str1 LF)
    as Hbody by reflexivity.
  assert (int64 1700000000) as Hc by (unfold int64; lia).
  assert (Forall (λ u, plain_ascii_text u = true) sample_urls) as Hus
    by (repeat constructor).
  destruct (envelope_is_read_back c w req resp 1700000000 sample_urls
              (str1 LF) H200 Hbody Hc Hus) as (HG & _).
  apply HG. split; vm_compute; reflexivity.
Defined.

(** A prompt with markup. *)
Lemma markup_prompt_is_read_back :
  let c := NewClient "key" in
  let req :=
    request c "https://api.openai.com/v1/images/generations"
      "application/json" (generate_body markup_prompt None None None None) in
  (∃ raw ms,
     json.readValue (http.Body req)
       = inr (json.JObject (("prompt", json.JString raw) :: ms)) ∧
     json.unquote raw = markup_prompt) ∧
  html_safe_text markup_prompt = false.
Proof.
  intros c req.
  assert (http.wire
            (net (Generate c markup_prompt None None None None
                    (stub 200 one_image)).1)
          = (http.wire (net (stub 200 one_image)) ++ [req])%list) as Hput
    by (vm_compute; reflexivity).
  destruct (ascii_text_is_read_back c markup_prompt None None None None
              (stub 200 one_image) req Hput) as (raw & ms & Hread & Hp & _).
  split; [|reflexivity].
  exists raw, ms. split; [exact Hread|]. apply Hp. reflexivity.
Defined.

Lemma markup_prompt_is_sent_escaped :
  let c := NewClient "key" in
  let req :=
    request c "https://api.openai.com/v1/images/generations"
      "application/json" (generate_body markup_prompt None None None None) in
  html_safe_text markup_prompt = false ∧
  html_safe_text (http.Body req) = true.
Proof.
  intros c req. split; [reflexivity|].
  apply (Generate_body_is_HTML_safe c markup_prompt None None None None
           (stub 200 one_image)).
  vm_compute; reflexivity.
Defined.
